(** * neo4j_data_loader: the batched CSV-to-Neo4j loader of [etl.py]

    A shallow embedding of class [load_data_to_neo4j] and of the script's
    entry point.  The Python code is effectful (console output, a Neo4j
    driver, exceptions), so every method is a computation in a small state
    and exception monad over an explicit [World].  The three collaborators
    the code only calls (pandas, the Neo4j driver, the store) are described
    by an environment [Env] that says which of their calls raise. *)

From Stdlib Require Import ZArith Lia.
From stdpp Require Import base list strings gmap.

#[local] Set Warnings "-clear-no-such-hyp".

Local Open Scope string_scope.
Local Open Scope list_scope.

(** ** Data model *)

(** A cell of the DataFrame.  The loader never inspects a value; a float is
    kept as its bit pattern. *)
Inductive scalar : Type :=
  | VInt (z : Z)
  | VFloat (bits : Z)
  | VBool (b : bool)
  | VStr (s : string).

(** A row as [iterrows] yields it: column labels with their values, in
    column order. *)
Definition Row : Type := list (string * scalar).

(** The DataFrame, as far as the loader looks at it: its rows in order. *)
Definition DataFrame : Type := list Row.

(** The Python dict [row.to_dict()] builds. *)
Abbreviation Dict := (gmap string scalar).

(** A batch: the list [batch] of the loading loop. *)
Definition Batch : Type := list Dict.

(** A node of the store. *)
Record Node : Type := mkNode {
  labels : list string;
  props : Dict
}.

(** The exceptions the handlers of [load_data] tell apart, and the rest. *)
Inductive exn : Type :=
  | FileNotFoundError
  | ParserError
  | AttributeError (attr : string)
  | OtherError (what : string).

(** The lines the program prints, one constructor for each [print]. *)
Inductive Msg : Type :=
  | DriverInitialized
  | DriverInitFailed (e : exn)
  | CsvLoaded
  | FileNotFoundMsg
  | ParseErrorMsg
  | UnexpectedError (e : exn)
  | CreateFailed (e : exn)
  | AllLoaded
  | LoadFailed (e : exn)
  | ConnectionClosed
  | CloseFailed (e : exn)
  | RunFailed (e : exn).

Inductive Result (A : Type) : Type :=
  | Ok (a : A)
  | Raise (e : exn).
Arguments Ok {A} a.
Arguments Raise {A} e.

(** What the calls into pandas and into the Neo4j driver do.  The write
    transactions of a run are numbered from 0 in the order in which
    [session.write_transaction] is called. *)
Record Env : Type := mkEnv {
  connect_raises : option exn;          (* GraphDatabase.driver(...) *)
  read_csv : string -> Result DataFrame; (* pd.read_csv(path) *)
  session_raises : option exn;          (* driver.session() *)
  tx_run_raises : nat -> option exn;    (* tx.run(...) in transaction k *)
  commit_raises : nat -> option exn;    (* the commit of transaction k *)
  close_raises : option exn             (* driver.close() *)
}.

(** Everything a run can change or show. *)
Record World : Type := mkWorld {
  store : list Node;          (* committed nodes, in creation order *)
  pending : list Node;        (* work of the open transaction *)
  flushed : list Batch;       (* payloads of the write_transaction calls *)
  stdout : list Msg;          (* printed lines *)
  held : list nat;            (* len(batch) after each append and reset *)
  sessions_opened : nat;
  sessions_closed : nat;
  drivers_opened : nat;
  driver_close_calls : nat
}.

Definition init_world : World := mkWorld [] [] [] [] [] 0 0 0 0.

(** The attributes [__init__] sets on [self]; [None] is an attribute that
    was never assigned. *)
Record Loader : Type := mkLoader {
  driver : option unit;
  FILE_PATH : option string
}.

Record Config : Type := mkConfig {
  cfg_URI : string;
  cfg_USERNAME : string;
  cfg_PASSWORD : string;
  cfg_FILE_PATH : string
}.

(** ** The monad of the methods *)

Definition M (A : Type) : Type := World -> Result A * World.

Definition ret {A} (a : A) : M A := fun w => (Ok a, w).

Definition raise {A} (e : exn) : M A := fun w => (Raise e, w).

Definition bind {A B} (m : M A) (k : A -> M B) : M B :=
  fun w =>
    match m w with
    | (Ok a, w') => k a w'
    | (Raise e, w') => (Raise e, w')
    end.

Notation "x <~ m ;; k" := (bind m (fun x => k))
  (at level 100, m at next level, right associativity).
Notation "m ;;; k" := (bind m (fun _ => k))
  (at level 100, right associativity).

(** [try: body except Exception as e: handler]. *)
Definition try_except {A} (body : M A) (handler : exn -> M A) : M A :=
  fun w =>
    match body w with
    | (Ok a, w') => (Ok a, w')
    | (Raise e, w') => handler e w'
    end.

(** ** World updates *)

Definition print (m : Msg) : M unit := fun w =>
  (Ok tt, mkWorld (store w) (pending w) (flushed w) (stdout w ++ [m]) (held w)
            (sessions_opened w) (sessions_closed w) (drivers_opened w)
            (driver_close_calls w)).

Definition set_held (h : list nat) (w : World) : World :=
  mkWorld (store w) (pending w) (flushed w) (stdout w) h
    (sessions_opened w) (sessions_closed w) (drivers_opened w)
    (driver_close_calls w).

(** Ghost step: the length of the accumulator after it was changed. *)
Definition note_held (n : nat) : M unit := fun w =>
  (Ok tt, set_held (held w ++ [n]) w).

Definition begin_transaction (payload : Batch) (w : World) : World :=
  mkWorld (store w) [] (flushed w ++ [payload]) (stdout w) (held w)
    (sessions_opened w) (sessions_closed w) (drivers_opened w)
    (driver_close_calls w).

Definition add_pending (ns : list Node) (w : World) : World :=
  mkWorld (store w) (pending w ++ ns) (flushed w) (stdout w) (held w)
    (sessions_opened w) (sessions_closed w) (drivers_opened w)
    (driver_close_calls w).

Definition commit (w : World) : World :=
  mkWorld (store w ++ pending w) [] (flushed w) (stdout w) (held w)
    (sessions_opened w) (sessions_closed w) (drivers_opened w)
    (driver_close_calls w).

Definition rollback (w : World) : World :=
  mkWorld (store w) [] (flushed w) (stdout w) (held w)
    (sessions_opened w) (sessions_closed w) (drivers_opened w)
    (driver_close_calls w).

Definition session_enter (w : World) : World :=
  mkWorld (store w) (pending w) (flushed w) (stdout w) (held w)
    (S (sessions_opened w)) (sessions_closed w) (drivers_opened w)
    (driver_close_calls w).

Definition session_exit (w : World) : World :=
  mkWorld (store w) (pending w) (flushed w) (stdout w) (held w)
    (sessions_opened w) (S (sessions_closed w)) (drivers_opened w)
    (driver_close_calls w).

Definition driver_enter (w : World) : World :=
  mkWorld (store w) (pending w) (flushed w) (stdout w) (held w)
    (sessions_opened w) (sessions_closed w) (S (drivers_opened w))
    (driver_close_calls w).

Definition driver_exit (w : World) : World :=
  mkWorld (store w) (pending w) (flushed w) (stdout w) (held w)
    (sessions_opened w) (sessions_closed w) (drivers_opened w)
    (S (driver_close_calls w)).

(** ** The code *)

(** [row.to_dict()]: the labels are inserted in column order, so of two
    equal labels the later one's value stays. *)
Definition to_dict (row : Row) : Dict :=
  fold_left (fun d kv => <[kv.1 := kv.2]> d) row ∅.

(** [data.iterrows()]: the rows with their index. *)
Definition iterrows (data : DataFrame) : list (nat * Row) :=
  imap (fun i row => (i, row)) data.

(** The query of [create_product_nodes] run on its parameter:
    [UNWIND $products AS product CREATE (p:Product) SET p = product]
    makes, for each element of the list, one node labelled [Product] whose
    properties are replaced by the element. *)
Definition unwind_create_set (products : Batch) : list Node :=
  map (fun product => mkNode ["Product"] product) products.

Section Methods.

Variable env : Env.

(** [tx.run(query, products=products)] in transaction [k]. *)
Definition tx_run (k : nat) (products : Batch) : M unit := fun w =>
  match tx_run_raises env k with
  | Some e => (Raise e, w)
  | None => (Ok tt, add_pending (unwind_create_set products) w)
  end.

Definition create_product_nodes (tx : nat) (products : Batch) : M unit :=
  try_except
    (tx_run tx products)
    (fun e => print (CreateFailed e)).

(** [session.write_transaction(f, payload)]: a transaction is begun, [f]
    is called on it once, and its work is committed when [f] returns and
    rolled back when [f] raises. *)
Definition write_transaction (f : nat -> Batch -> M unit) (payload : Batch)
  : M unit := fun w =>
  let k := length (flushed w) in
  match f k payload (begin_transaction payload w) with
  | (Ok _, w') =>
      match commit_raises env k with
      | Some e => (Raise e, rollback w')
      | None => (Ok tt, commit w')
      end
  | (Raise e, w') => (Raise e, rollback w')
  end.

(** [with self.driver.session() as session: body]. *)
Definition with_session {A} (body : M A) : M A := fun w =>
  match session_raises env with
  | Some e => (Raise e, w)
  | None =>
      let (r, w') := body (session_enter w) in (r, session_exit w')
  end.

(** [self.driver] and [self.FILE_PATH]. *)
Definition get_driver (self : Loader) : M unit :=
  match driver self with
  | Some d => ret d
  | None => raise (AttributeError "driver")
  end.

Definition get_FILE_PATH (self : Loader) : M string :=
  match FILE_PATH self with
  | Some p => ret p
  | None => raise (AttributeError "FILE_PATH")
  end.

(** The [for] loop of [load_csv_to_neo4j]; the result is [batch] as the
    loop leaves it. *)
Fixpoint loading_loop (batch_size : Z) (rows : list (nat * Row))
    (batch : Batch) : M Batch :=
  match rows with
  | [] => ret batch
  | (index, row) :: rows' =>
      let batch := batch ++ [to_dict row] in
      note_held (length batch) ;;;
      if (Z.of_nat (length batch) >=? batch_size)%Z then
        write_transaction create_product_nodes batch ;;;
        note_held 0 ;;;
        loading_loop batch_size rows' []
      else
        loading_loop batch_size rows' batch
  end.

Definition load_csv_to_neo4j (self : Loader) (data : DataFrame)
    (batch_size : Z) : M unit :=
  try_except
    (get_driver self ;;;
     with_session
       (batch <~ loading_loop batch_size (iterrows data) [] ;;
        match batch with
        | [] => ret tt
        | _ :: _ => write_transaction create_product_nodes batch
        end ;;;
        print AllLoaded))
    (fun e => print (LoadFailed e)).

(** The line of the [except] clause of [load_data] that takes [e]. *)
Definition load_data_except (e : exn) : Msg :=
  match e with
  | FileNotFoundError => FileNotFoundMsg
  | ParserError => ParseErrorMsg
  | _ => UnexpectedError e
  end.

Definition load_data (self : Loader) : M (option DataFrame) :=
  try_except
    (path <~ get_FILE_PATH self ;;
     data <~ (fun w => (read_csv env path, w)) ;;
     print CsvLoaded ;;;
     ret (Some data))
    (fun e => print (load_data_except e) ;;; ret None).

Definition init (URI USERNAME PASSWORD path : string) : M Loader :=
  try_except
    (match connect_raises env with
     | Some e => raise e
     | None => fun w => (Ok tt, driver_enter w)
     end ;;;
     print DriverInitialized ;;;
     ret (mkLoader (Some tt) (Some path)))
    (fun e => print (DriverInitFailed e) ;;; ret (mkLoader None None)).

Definition close (self : Loader) : M unit :=
  try_except
    (get_driver self ;;;
     (fun w =>
        match close_raises env with
        | Some e => (Raise e, driver_exit w)
        | None => (Ok tt, driver_exit w)
        end) ;;;
     print ConnectionClosed)
    (fun e => print (CloseFailed e)).

Definition default_batch_size : Z := 1000.

Definition run (self : Loader) : M unit :=
  try_except
    (data <~ load_data self ;;
     match data with
     | Some data => load_csv_to_neo4j self data default_batch_size
     | None => ret tt
     end)
    (fun e => print (RunFailed e)).

(** The script, once [config.yaml] was read. *)
Definition main (config : Config) : M unit :=
  loader <~ init (cfg_URI config) (cfg_USERNAME config)
              (cfg_PASSWORD config) (cfg_FILE_PATH config) ;;
  run loader ;;;
  close loader.

End Methods.

(** ** The payloads of the loop as a function of the rows

    [in_loop] lists the batches the [for] loop submits and [left_over] is
    the accumulator it ends with; they follow the loop's own tests and are
    related to [loading_loop] by [loading_loop_flush_seq] below. *)

Fixpoint in_loop (batch_size : Z) (rows : list (nat * Row)) (batch : Batch)
  : list Batch :=
  match rows with
  | [] => []
  | (_, row) :: rows' =>
      let batch := batch ++ [to_dict row] in
      if (Z.of_nat (length batch) >=? batch_size)%Z
      then batch :: in_loop batch_size rows' []
      else in_loop batch_size rows' batch
  end.

Fixpoint left_over (batch_size : Z) (rows : list (nat * Row)) (batch : Batch)
  : Batch :=
  match rows with
  | [] => batch
  | (_, row) :: rows' =>
      let batch := batch ++ [to_dict row] in
      if (Z.of_nat (length batch) >=? batch_size)%Z
      then left_over batch_size rows' []
      else left_over batch_size rows' batch
  end.

(** The [if batch:] after the loop. *)
Definition final_batch (batch : Batch) : list Batch :=
  match batch with
  | [] => []
  | _ :: _ => [batch]
  end.

Definition batches (batch_size : Z) (rows : list (nat * Row)) : list Batch :=
  in_loop batch_size rows [] ++ final_batch (left_over batch_size rows []).

(** The write transaction the loader calls on a batch. *)
Abbreviation flush env := (write_transaction env (create_product_nodes env)).

(** One write transaction after the other, until one raises. *)
Fixpoint flush_seq (env : Env) (bs : list Batch) : M unit :=
  match bs with
  | [] => ret tt
  | b :: bs' =>
      write_transaction env (create_product_nodes env) b ;;;
      flush_seq env bs'
  end.

(** What a computation adds to the world it is started in. *)
Definition flushed_by {A} (m : M A) (w : World) : list Batch :=
  drop (length (flushed w)) (flushed (snd (m w))).

Definition created_by {A} (m : M A) (w : World) : list Node :=
  drop (length (store w)) (store (snd (m w))).

Definition printed_by {A} (m : M A) (w : World) : list Msg :=
  drop (length (stdout w)) (stdout (snd (m w))).

Definition held_by {A} (m : M A) (w : World) : list nat :=
  drop (length (held w)) (held (snd (m w))).

(** The parts no write transaction touches. *)
Definition same_resources (w w' : World) : Prop :=
  held w' = held w /\
  sessions_opened w' = sessions_opened w /\
  sessions_closed w' = sessions_closed w /\
  drivers_opened w' = drivers_opened w /\
  driver_close_calls w' = driver_close_calls w.

(** The lines [loader.close()] prints. *)
Definition is_close_msg (m : Msg) : bool :=
  match m with
  | ConnectionClosed | CloseFailed _ => true
  | _ => false
  end.

Definition close_calls (l : list Msg) : nat :=
  length (List.filter is_close_msg l).

(** The ghost trace of the accumulator, read from a size [cur]: from a
    size below [batch_size] the next change is an append, to [cur + 1] and
    not beyond [batch_size]; from a size that reached [batch_size] the next
    change is the reset to empty. *)
Fixpoint trace_ok (batch_size : Z) (cur : nat) (l : list nat) : Prop :=
  match l with
  | [] => True
  | n :: l' =>
      (if (Z.of_nat cur >=? batch_size)%Z then n = 0 else n = S cur) /\
      (Z.of_nat n <= batch_size)%Z /\
      trace_ok batch_size n l'
  end.

(** ** Sample inputs *)

Definition sample_row (n : Z) : Row := [("id", VInt n); ("name", VStr "widget")].

Definition sample_data : DataFrame := [sample_row 1; sample_row 2; sample_row 3].

Definition data_2500 : DataFrame := replicate 2500 (sample_row 0).

Definition loader_ok : Loader := mkLoader (Some tt) (Some "products.csv").

Definition sample_config : Config :=
  mkConfig "bolt://localhost:7687" "neo4j" "secret" "products.csv".

(** Every call succeeds; the file holds [sample_data]. *)
Definition env_ok : Env :=
  mkEnv None (fun _ => Ok sample_data) None (fun _ => None) (fun _ => None) None.

(** [tx.run] raises in the second write transaction. *)
Definition env_tx_run_fails_second : Env :=
  mkEnv None (fun _ => Ok sample_data) None
    (fun k => if (k =? 1)%nat then Some (OtherError "write failed") else None)
    (fun _ => None) None.

(** The commit of the second write transaction raises. *)
Definition env_commit_fails_second : Env :=
  mkEnv None (fun _ => Ok sample_data) None (fun _ => None)
    (fun k => if (k =? 1)%nat then Some (OtherError "commit failed") else None)
    None.

(** The file does not exist. *)
Definition env_no_file : Env :=
  mkEnv None (fun _ => Raise FileNotFoundError) None (fun _ => None)
    (fun _ => None) None.

(** The file has a header and no data row. *)
Definition env_empty_file : Env :=
  mkEnv None (fun _ => Ok []) None (fun _ => None) (fun _ => None) None.

(** The first failing write of a run is that of batch [j]. *)
Definition first_failure (env : Env) (j : nat) : Prop :=
  (exists e, tx_run_raises env j = Some e \/ commit_raises env j = Some e) /\
  forall i, i < j -> tx_run_raises env i = None /\ commit_raises env i = None.

(** The reading of "the run does not continue past the failing batch":
    when the write of batch [j] is the first to fail, the payloads
    submitted are the first [j + 1] batches and no more. *)
Definition stops_at_failed_batch (env : Env) (self : Loader)
    (data : DataFrame) (batch_size : Z) : Prop :=
  forall j,
    j < length (batches batch_size (iterrows data)) ->
    first_failure env j ->
    flushed_by (load_csv_to_neo4j env self data batch_size) init_world
    = take (S j) (batches batch_size (iterrows data)).

(** ** What a run leaves in the store *)

(** The batches whose nodes stay in the store when the batches [bs] are
    submitted as the write transactions [k], [k + 1], ...: a batch whose
    [tx.run] raised adds nothing, and the first commit that raises ends the
    sequence. *)
Fixpoint committed (env : Env) (k : nat) (bs : list Batch) : list Batch :=
  match bs with
  | [] => []
  | b :: bs' =>
      match commit_raises env k with
      | Some _ => []
      | None =>
          match tx_run_raises env k with
          | Some _ => []
          | None => [b]
          end ++ committed env (S k) bs'
      end
  end.

(** [GraphDatabase.driver] raises. *)
Definition env_no_driver : Env :=
  mkEnv (Some (OtherError "unreachable")) (fun _ => Ok sample_data) None
    (fun _ => None) (fun _ => None) None.

(** [driver.session()] raises. *)
Definition env_no_session : Env :=
  mkEnv None (fun _ => Ok sample_data) (Some (OtherError "no session"))
    (fun _ => None) (fun _ => None) None.

(** Every [tx.run] raises. *)
Definition env_tx_run_always_fails : Env :=
  mkEnv None (fun _ => Ok sample_data) None
    (fun _ => Some (OtherError "write failed")) (fun _ => None) None.

(** ** The frame before [iterrows]

    [DataFrame] above is the frame as [iterrows] presents it.  A frame as
    [pd.read_csv] parsed it has a dtype for each column, and [iterrows]
    builds every row from [DataFrame.values], which brings all columns to
    one dtype first. *)















(** The accumulator, at length [n], has reached the batch size. *)
Definition reached (batch_size : Z) (n : nat) : bool :=
  (batch_size <=? Z.of_nat n)%Z.

(** * Proofs *)

(** ** Facts about [to_dict] *)








Lemma iterrows_rows (data : DataFrame) : (iterrows data).*2 = data.
Proof.
  unfold iterrows. rewrite fmap_imap.
  rewrite (imap_ext _ (const id)) by reflexivity.
  rewrite imap_const. apply list_fmap_id.
Qed.

(** ** One write transaction *)

Section Flush.

Variable env : Env.

Lemma create_product_nodes_eq (k : nat) (products : Batch) (w : World) :
  create_product_nodes env k products w =
  (Ok tt,
   match tx_run_raises env k with
   | Some e => snd (print (CreateFailed e) w)
   | None => add_pending (unwind_create_set products) w
   end).
Proof.
  unfold create_product_nodes, try_except, tx_run.
  destruct (tx_run_raises env k); reflexivity.
Qed.

Lemma flush_eq (b : Batch) (w : World) :
  write_transaction env (create_product_nodes env) b w =
  let k := length (flushed w) in
  let w1 :=
    match tx_run_raises env k with
    | Some e => snd (print (CreateFailed e) (begin_transaction b w))
    | None => add_pending (unwind_create_set b) (begin_transaction b w)
    end in
  match commit_raises env k with
  | Some e => (Raise e, rollback w1)
  | None => (Ok tt, commit w1)
  end.
Proof.
  unfold write_transaction. rewrite create_product_nodes_eq. reflexivity.
Qed.

Lemma flush_set_held (h : list nat) (b : Batch) (w : World) :
  write_transaction env (create_product_nodes env) b (set_held h w) =
  (fst (write_transaction env (create_product_nodes env) b w),
   set_held h (snd (write_transaction env (create_product_nodes env) b w))).
Proof.
  rewrite !flush_eq. simpl.
  destruct (commit_raises env _), (tx_run_raises env _); reflexivity.
Qed.

Lemma flush_seq_set_held (h : list nat) (bs : list Batch) (w : World) :
  flush_seq env bs (set_held h w) =
  (fst (flush_seq env bs w), set_held h (snd (flush_seq env bs w))).
Proof.
  revert w. induction bs as [|b bs IH]; intros w; simpl.
  - reflexivity.
  - unfold bind. rewrite flush_set_held.
    destruct (write_transaction env (create_product_nodes env) b w)
      as [[[]|e] w1]; simpl.
    + apply IH.
    + reflexivity.
Qed.

Lemma flush_seq_app (bs1 bs2 : list Batch) (w : World) :
  flush_seq env (bs1 ++ bs2) w =
  (flush_seq env bs1 ;;; flush_seq env bs2) w.
Proof.
  revert w. induction bs1 as [|b bs1 IH]; intros w; simpl.
  - reflexivity.
  - unfold bind in *.
    destruct (write_transaction env (create_product_nodes env) b w)
      as [[[]|e] w1]; simpl.
    + apply IH.
    + reflexivity.
Qed.

Lemma set_held_set_held (h1 h2 : list nat) (w : World) :
  set_held h1 (set_held h2 w) = set_held h1 w.
Proof. reflexivity. Qed.

Lemma set_held_id (w : World) : set_held (held w) w = w.
Proof. destruct w; reflexivity. Qed.

(** The loop submits the batches of [in_loop] one after the other and
    changes nothing else but the ghost trace. *)
Lemma loading_loop_flush_seq (B : Z) (rows : list (nat * Row))
    (batch : Batch) (w : World) :
  exists h,
    loading_loop env B rows batch w =
    (match fst (flush_seq env (in_loop B rows batch) w) with
     | Ok _ => Ok (left_over B rows batch)
     | Raise e => Raise e
     end,
     set_held h (snd (flush_seq env (in_loop B rows batch) w))).
Proof.
  revert batch w. induction rows as [|[i row] rows IH]; intros batch w.
  - exists (held w). simpl. unfold ret. rewrite set_held_id. reflexivity.
  - cbn [loading_loop in_loop left_over].
    set (b' := batch ++ [to_dict row]).
    unfold bind, note_held.
    destruct (Z.of_nat (length b') >=? B)%Z.
    + cbn [flush_seq]. unfold bind. rewrite flush_set_held.
      destruct (write_transaction env (create_product_nodes env) b' w)
        as [[[]|e] w1]; cbn [fst snd].
      * rewrite set_held_set_held.
        destruct (IH [] (set_held (held (set_held (held w ++ [length b']) w1) ++ [0]) w1)) as [h Hh].
        rewrite Hh, flush_seq_set_held. cbn [fst snd].
        rewrite set_held_set_held. eexists. reflexivity.
      * eexists. reflexivity.
    + destruct (IH b' (set_held (held w ++ [length b']) w)) as [h Hh].
      rewrite Hh, flush_seq_set_held. cbn [fst snd].
      rewrite set_held_set_held. eexists. reflexivity.
Qed.
End Flush.

(** ** [load_csv_to_neo4j] as a sequence of write transactions *)

Section LoadCsv.

Variable env : Env.

(** The outcome of [load_csv_to_neo4j] on a loader that has a driver, when
    the session opens: the batches are submitted in order, and the run ends
    with one of the two last lines. *)
Lemma load_csv_to_neo4j_eq (self : Loader) (data : DataFrame) (B : Z)
    (w : World) :
  driver self = Some tt -> session_raises env = None ->
  exists h,
    load_csv_to_neo4j env self data B w =
    (Ok tt,
     set_held h
       (match flush_seq env (batches B (iterrows data)) (session_enter w) with
        | (Ok _, w') => snd (print AllLoaded (session_exit w'))
        | (Raise e, w') => snd (print (LoadFailed e) (session_exit w'))
        end)).
Proof.
  intros Hd Hs. unfold load_csv_to_neo4j, try_except, get_driver, batches.
  rewrite Hd. unfold bind at 1. unfold ret at 1.
  unfold with_session. rewrite Hs. unfold bind at 1.
  destruct (loading_loop_flush_seq env B (iterrows data) [] (session_enter w))
    as [h Hh].
  rewrite Hh, flush_seq_app. unfold bind at 2.
  destruct (flush_seq env (in_loop B (iterrows data) []) (session_enter w))
    as [[[]|e] w1]; cbn [fst snd].
  - unfold bind.
    destruct (left_over B (iterrows data) []) as [|d l]; cbn [final_batch].
    + cbn [flush_seq]. unfold ret. exists h. destruct w1; reflexivity.
    + cbn [flush_seq]. unfold bind, ret. rewrite flush_set_held.
      destruct (write_transaction env (create_product_nodes env) (d :: l) w1)
        as [[[]|e] w2]; cbn [fst snd]; exists h; destruct w2; reflexivity.
  - exists h. destruct w1; reflexivity.
Qed.

Lemma load_csv_to_neo4j_no_driver (self : Loader) (data : DataFrame) (B : Z)
    (w : World) :
  driver self = None ->
  load_csv_to_neo4j env self data B w =
  print (LoadFailed (AttributeError "driver")) w.
Proof.
  intros Hd. unfold load_csv_to_neo4j, try_except, get_driver.
  rewrite Hd. reflexivity.
Qed.

Lemma load_csv_to_neo4j_no_session (self : Loader) (data : DataFrame) (B : Z)
    (w : World) (e : exn) :
  driver self = Some tt -> session_raises env = Some e ->
  load_csv_to_neo4j env self data B w = print (LoadFailed e) w.
Proof.
  intros Hd Hs. unfold load_csv_to_neo4j, try_except, get_driver, with_session.
  rewrite Hd, Hs. reflexivity.
Qed.

End LoadCsv.

(** ** What a sequence of write transactions does to each part of the world *)

Section FlushSeq.

Variable env : Env.

Lemma flush_result (b : Batch) (w : World) :
  fst (flush env b w) =
  match commit_raises env (length (flushed w)) with
  | Some e => Raise e
  | None => Ok tt
  end.
Proof. rewrite flush_eq. simpl. destruct (commit_raises env _); reflexivity. Qed.

Lemma flush_flushed (b : Batch) (w : World) :
  flushed (snd (flush env b w)) = flushed w ++ [b].
Proof.
  rewrite flush_eq. simpl.
  destruct (commit_raises env _), (tx_run_raises env _); reflexivity.
Qed.

Lemma flush_store (b : Batch) (w : World) :
  store (snd (flush env b w)) =
  store w ++
  match commit_raises env (length (flushed w)),
        tx_run_raises env (length (flushed w)) with
  | None, None => unwind_create_set b
  | _, _ => []
  end.
Proof.
  rewrite flush_eq. simpl.
  destruct (commit_raises env _), (tx_run_raises env _); simpl;
    rewrite ?app_nil_r; reflexivity.
Qed.

Lemma flush_stdout (b : Batch) (w : World) :
  stdout (snd (flush env b w)) =
  stdout w ++
  match tx_run_raises env (length (flushed w)) with
  | Some e => [CreateFailed e]
  | None => []
  end.
Proof.
  rewrite flush_eq. simpl.
  destruct (commit_raises env _), (tx_run_raises env _); simpl;
    rewrite ?app_nil_r; reflexivity.
Qed.

Lemma flush_resources (b : Batch) (w : World) :
  same_resources w (snd (flush env b w)).
Proof.
  rewrite flush_eq. unfold same_resources. simpl.
  destruct (commit_raises env _), (tx_run_raises env _); simpl; auto.
Qed.

Lemma flush_seq_resources (bs : list Batch) (w : World) :
  same_resources w (snd (flush_seq env bs w)).
Proof.
  revert w. induction bs as [|b bs IH]; intros w; simpl.
  - unfold same_resources; auto.
  - unfold bind. pose proof (flush_resources b w) as Hb.
    destruct (flush env b w) as [[[]|e] w1]; simpl in *.
    + specialize (IH w1). unfold same_resources in *. intuition congruence.
    + exact Hb.
Qed.

(** Whatever fails, the payloads submitted are an initial part of [bs]. *)
Lemma flush_seq_prefix (bs : list Batch) (w : World) :
  exists n, flushed (snd (flush_seq env bs w)) = flushed w ++ take n bs.
Proof.
  revert w. induction bs as [|b bs IH]; intros w; simpl.
  - exists 0. rewrite app_nil_r. reflexivity.
  - unfold bind. pose proof (flush_flushed b w) as Hb.
    destruct (flush env b w) as [[[]|e] w1]; simpl in *.
    + destruct (IH w1) as [n Hn]. exists (S n).
      rewrite Hn, Hb, <- app_assoc. reflexivity.
    + exists 1. rewrite Hb. simpl. rewrite take_0. reflexivity.
Qed.

(** Every line a write transaction prints is a [CreateFailed]. *)
Lemma flush_seq_stdout (bs : list Batch) (w : World) :
  exists l, stdout (snd (flush_seq env bs w)) = stdout w ++ l /\
            Forall (fun m => exists e, m = CreateFailed e) l.
Proof.
  revert w. induction bs as [|b bs IH]; intros w; simpl.
  - exists []. rewrite app_nil_r. auto.
  - unfold bind. pose proof (flush_stdout b w) as Hb.
    assert (Hone : Forall (fun m => exists e, m = CreateFailed e)
              match tx_run_raises env (length (flushed w)) with
              | Some e => [CreateFailed e]
              | None => []
              end).
    { destruct (tx_run_raises env _); repeat constructor. eauto. }
    destruct (flush env b w) as [[[]|e] w1]; simpl in *.
    + destruct (IH w1) as (l & Hl & Hall). eexists. split.
      * rewrite Hl, Hb, <- app_assoc. reflexivity.
      * apply Forall_app; auto.
    + eexists. split; [exact Hb | exact Hone].
Qed.

(** When no commit raises every batch is submitted, whatever [tx.run]
    does. *)
Lemma flush_seq_all (bs : list Batch) (w : World) :
  (forall k, commit_raises env k = None) ->
  fst (flush_seq env bs w) = Ok tt /\
  flushed (snd (flush_seq env bs w)) = flushed w ++ bs.
Proof.
  intros Hc. revert w. induction bs as [|b bs IH]; intros w; simpl.
  - rewrite app_nil_r. auto.
  - unfold bind. pose proof (flush_flushed b w) as Hb.
    pose proof (flush_result b w) as Hr. rewrite Hc in Hr.
    destruct (flush env b w) as [[[]|e] w1]; simpl in *; [|discriminate].
    destruct (IH w1) as [H1 H2]. split; [exact H1|].
    rewrite H2, Hb, <- app_assoc. reflexivity.
Qed.

(** With no failure at all every batch becomes nodes, in order, and nothing
    is printed. *)
Lemma flush_seq_clean (bs : list Batch) (w : World) :
  (forall k, commit_raises env k = None) ->
  (forall k, tx_run_raises env k = None) ->
  store (snd (flush_seq env bs w)) = store w ++ unwind_create_set (concat bs) /\
  stdout (snd (flush_seq env bs w)) = stdout w.
Proof.
  intros Hc Hr. revert w. induction bs as [|b bs IH]; intros w; simpl.
  - rewrite app_nil_r. auto.
  - unfold bind. pose proof (flush_store b w) as Hs.
    pose proof (flush_stdout b w) as Ho.
    pose proof (flush_result b w) as Hres.
    rewrite Hc in Hres. rewrite Hc, Hr in Hs. rewrite Hr, app_nil_r in Ho.
    destruct (flush env b w) as [[[]|e] w1]; simpl in *; [|discriminate].
    destruct (IH w1) as [H1 H2]. split.
    + rewrite H1, Hs, <- app_assoc. unfold unwind_create_set.
      rewrite map_app. reflexivity.
    + congruence.
Qed.

End FlushSeq.

(** ** The batches of a row sequence *)

Lemma final_batch_concat (batch : Batch) : concat (final_batch batch) = batch.
Proof. destruct batch; simpl; rewrite ?app_nil_r; reflexivity. Qed.

Lemma in_loop_concat (B : Z) (rows : list (nat * Row)) (batch : Batch) :
  concat (in_loop B rows batch) ++ left_over B rows batch
  = batch ++ (to_dict <$> rows.*2).
Proof.
  revert batch. induction rows as [|[i row] rows IH]; intros batch; simpl.
  - rewrite app_nil_r. reflexivity.
  - destruct (Z.of_nat (length (batch ++ [to_dict row])) >=? B)%Z; simpl.
    + rewrite <- !app_assoc. simpl. f_equal. f_equal. apply (IH []).
    + rewrite IH, <- app_assoc. reflexivity.
Qed.

Lemma batches_concat (B : Z) (rows : list (nat * Row)) :
  concat (batches B rows) = to_dict <$> rows.*2.
Proof.
  unfold batches. rewrite concat_app, final_batch_concat.
  apply (in_loop_concat B rows []).
Qed.

Lemma in_loop_nonempty (B : Z) (rows : list (nat * Row)) (batch : Batch) :
  Forall (fun b => b <> []) (in_loop B rows batch).
Proof.
  revert batch. induction rows as [|[i row] rows IH]; intros batch; simpl.
  - constructor.
  - destruct (Z.of_nat (length (batch ++ [to_dict row])) >=? B)%Z.
    + constructor; [|apply IH]. destruct batch; discriminate.
    + apply IH.
Qed.

Lemma batches_nonempty (B : Z) (rows : list (nat * Row)) :
  Forall (fun b => b <> []) (batches B rows).
Proof.
  unfold batches. apply Forall_app. split.
  - apply in_loop_nonempty.
  - destruct (left_over B rows []); simpl; repeat constructor. discriminate.
Qed.

(** Lengths, for a positive batch size [b] and an accumulator below it. *)
Lemma in_loop_sizes (B : Z) (rows : list (nat * Row)) (batch : Batch) :
  (0 < B)%Z -> length batch < Z.to_nat B ->
  length <$> in_loop B rows batch
  = replicate ((length batch + length rows) / Z.to_nat B) (Z.to_nat B) /\
  length (left_over B rows batch)
  = (length batch + length rows) mod Z.to_nat B.
Proof.
  intros HB. revert batch.
  induction rows as [|[i row] rows IH]; intros batch Hlt; simpl.
  - rewrite Nat.add_0_r, Nat.div_small, Nat.mod_small by lia. auto.
  - rewrite length_app. simpl.
    destruct (Z.geb_spec (Z.of_nat (length batch + 1)) B) as [Hge|Hnge].
    + assert (Hb : length batch + 1 = Z.to_nat B) by lia.
      destruct (IH []) as [H1 H2]; [simpl; lia|]. simpl in H1, H2.
      replace (length batch + S (length rows))
        with (length rows + 1 * Z.to_nat B) by lia.
      rewrite Nat.div_add, Nat.Div0.mod_add by lia.
      rewrite fmap_cons, H1, H2, length_app. simpl.
      rewrite Hb, Nat.add_1_r. split; reflexivity.
    + destruct (IH (batch ++ [to_dict row])) as [H1 H2].
      { rewrite length_app. simpl. lia. }
      rewrite length_app in H1, H2. simpl in H1, H2.
      replace (length batch + S (length rows))
        with (length batch + 1 + length rows) by lia.
      auto.
Qed.

Lemma final_batch_sizes (batch : Batch) :
  length <$> final_batch batch
  = if (length batch =? 0)%nat then [] else [length batch].
Proof. destruct batch; reflexivity. Qed.

Lemma batches_sizes_nat (B : Z) (rows : list (nat * Row)) :
  (0 < B)%Z ->
  length <$> batches B rows
  = replicate (length rows / Z.to_nat B) (Z.to_nat B) ++
    (if (length rows mod Z.to_nat B =? 0)%nat then []
     else [length rows mod Z.to_nat B]).
Proof.
  intros HB. unfold batches. rewrite fmap_app, final_batch_sizes.
  destruct (in_loop_sizes B rows [] HB) as [H1 H2]; [simpl; lia|].
  simpl in H1, H2. rewrite H1, H2. reflexivity.
Qed.

(** The same in [Z], the type of [batch_size]. *)
Lemma batches_sizes (B : Z) (rows : list (nat * Row)) :
  (0 < B)%Z ->
  let R := Z.of_nat (length rows) in
  (fun b : Batch => Z.of_nat (length b)) <$> batches B rows
  = replicate (Z.to_nat (R / B)) B ++
    (if (R mod B =? 0)%Z then [] else [(R mod B)%Z]).
Proof.
  intros HB R.
  change ((fun b : Batch => Z.of_nat (length b)) <$> batches B rows)
    with ((Z.of_nat ∘ length) <$> batches B rows).
  rewrite (list_fmap_compose length Z.of_nat), batches_sizes_nat by exact HB.
  assert (Hb : Z.of_nat (Z.to_nat B) = B) by lia.
  assert (Hq : length rows / Z.to_nat B = Z.to_nat (R / B)).
  { unfold R. rewrite <- Hb at 2. rewrite <- Nat2Z.inj_div, Nat2Z.id.
    reflexivity. }
  assert (Hm : Z.of_nat (length rows mod Z.to_nat B) = (R mod B)%Z).
  { unfold R. rewrite Nat2Z.inj_mod, Hb. reflexivity. }
  rewrite fmap_app, fmap_replicate, Hb, Hq.
  f_equal.
  destruct (Nat.eqb_spec (length rows mod Z.to_nat B) 0) as [H0|H0];
    destruct (Z.eqb_spec (R mod B) 0) as [H0'|H0']; try lia.
  - reflexivity.
  - simpl. rewrite Hm. reflexivity.
Qed.

Lemma batches_count (B : Z) (rows : list (nat * Row)) :
  (0 < B)%Z ->
  Z.of_nat (length (batches B rows))
  = ((Z.of_nat (length rows) + B - 1) / B)%Z.
Proof.
  intros HB.
  pose proof (batches_sizes B rows HB) as Hs. cbv zeta in Hs.
  apply (f_equal length) in Hs.
  rewrite length_fmap, length_app, length_replicate in Hs.
  set (R := Z.of_nat (length rows)) in *.
  assert (HR : (0 <= R)%Z) by (unfold R; lia).
  pose proof (Z.div_mod R B ltac:(lia)) as Hdm.
  pose proof (Z.mod_pos_bound R B HB) as Hmb.
  assert (Hq : (0 <= R / B)%Z) by (apply Z.div_pos; lia).
  rewrite Hs.
  destruct (Z.eqb_spec (R mod B) 0) as [H0|H0]; simpl length.
  - apply Z.div_unique with (r := (B - 1)%Z); lia.
  - apply Z.div_unique with (r := (R mod B - 1)%Z); lia.
Qed.

(** ** Summaries of the methods *)

Lemma create_failed_not_close (l : list Msg) :
  Forall (fun m => exists e, m = CreateFailed e) l ->
  Forall (fun m => is_close_msg m = false) l.
Proof. intros H. eapply Forall_impl; [exact H|]. intros m [e ->]. reflexivity. Qed.

Section Summaries.

Variable env : Env.

(** The world after [load_csv_to_neo4j] on a loader with a driver and a
    session that opens, field by field, from the world [w1] the write
    transactions leave. *)
Lemma load_csv_to_neo4j_fields (self : Loader) (data : DataFrame) (B : Z)
    (w : World) :
  driver self = Some tt -> session_raises env = None ->
  let r1 := flush_seq env (batches B (iterrows data)) (session_enter w) in
  let r := load_csv_to_neo4j env self data B w in
  fst r = Ok tt /\
  flushed (snd r) = flushed (snd r1) /\
  store (snd r) = store (snd r1) /\
  stdout (snd r)
  = stdout (snd r1) ++
    [match fst r1 with Ok _ => AllLoaded | Raise e => LoadFailed e end] /\
  sessions_opened (snd r) = S (sessions_opened w) /\
  sessions_closed (snd r) = S (sessions_closed w) /\
  drivers_opened (snd r) = drivers_opened w /\
  driver_close_calls (snd r) = driver_close_calls w.
Proof.
  intros Hd Hs r1 r. subst r.
  destruct (load_csv_to_neo4j_eq env self data B w Hd Hs) as [h ->].
  pose proof (flush_seq_resources env (batches B (iterrows data))
                (session_enter w)) as Hres.
  fold r1 in Hres |- *. destruct r1 as [[[]|e] w1]; unfold same_resources in Hres;
    simpl in *; intuition congruence.
Qed.

(** Without any assumption on the environment. *)
Lemma load_csv_to_neo4j_summary (self : Loader) (data : DataFrame) (B : Z)
    (w : World) :
  let r := load_csv_to_neo4j env self data B w in
  exists (n s : nat) (l : list Msg),
    fst r = Ok tt /\
    flushed (snd r) = flushed w ++ take n (batches B (iterrows data)) /\
    stdout (snd r) = stdout w ++ l /\
    Forall (fun m => is_close_msg m = false) l /\
    sessions_opened (snd r) = sessions_opened w + s /\
    sessions_closed (snd r) = sessions_closed w + s /\
    drivers_opened (snd r) = drivers_opened w /\
    driver_close_calls (snd r) = driver_close_calls w.
Proof.
  intros r. subst r.
  destruct (driver self) as [[]|] eqn:Hd.
  - destruct (session_raises env) as [e|] eqn:Hs.
    + rewrite (load_csv_to_neo4j_no_session env self data B w e Hd Hs).
      exists 0, 0, [LoadFailed e]. simpl.
      rewrite take_0, app_nil_r, !Nat.add_0_r. repeat split; auto.
    + destruct (load_csv_to_neo4j_fields self data B w Hd Hs)
        as (H1 & H2 & H3 & H4 & H5 & H6 & H7 & H8).
      destruct (flush_seq_prefix env (batches B (iterrows data))
                  (session_enter w)) as [n Hn].
      destruct (flush_seq_stdout env (batches B (iterrows data))
                  (session_enter w)) as (l & Hl & Hall).
      exists n, 1, (l ++ [match
             fst (flush_seq env (batches B (iterrows data)) (session_enter w))
           with Ok _ => AllLoaded | Raise e => LoadFailed e end]).
      rewrite H2, H4, Hn, Hl, H5, H6, H7, H8, <- app_assoc, !Nat.add_1_r.
      simpl. repeat split; auto.
      apply Forall_app. split; [apply create_failed_not_close, Hall|].
      constructor; [|constructor].
      destruct (fst (flush_seq env _ _)); reflexivity.
  - rewrite (load_csv_to_neo4j_no_driver env self data B w Hd).
    exists 0, 0, [LoadFailed (AttributeError "driver")]. simpl.
    rewrite take_0, app_nil_r, !Nat.add_0_r. repeat split; auto.
Qed.

End Summaries.

(** ** The accumulator *)

Lemma trace_ok_bound (B : Z) (cur : nat) (l : list nat) :
  trace_ok B cur l -> Forall (fun n => (Z.of_nat n <= B)%Z) l.
Proof.
  revert cur. induction l as [|n l IH]; intros cur H; simpl in *.
  - constructor.
  - destruct H as (_ & Hn & Hl). constructor; eauto.
Qed.

Section Accumulator.

Variable env : Env.

Lemma loading_loop_held (B : Z) (rows : list (nat * Row)) (batch : Batch)
    (w : World) :
  (0 < B)%Z -> (Z.of_nat (length batch) < B)%Z ->
  exists t,
    held (snd (loading_loop env B rows batch w)) = held w ++ t /\
    trace_ok B (length batch) t.
Proof.
  intros HB. revert batch w.
  induction rows as [|[i row] rows IH]; intros batch w Hlt.
  - exists []. simpl. rewrite app_nil_r. auto.
  - cbn [loading_loop]. set (b' := batch ++ [to_dict row]).
    assert (Hb' : length b' = S (length batch)).
    { unfold b'. rewrite length_app. simpl. lia. }
    assert (Hstep : forall n, (if (Z.of_nat (length batch) >=? B)%Z
                               then n = 0 else n = S (length batch))
                              <-> n = S (length batch)).
    { intros n. destruct (Z.geb_spec (Z.of_nat (length batch)) B); [lia|tauto]. }
    unfold bind, note_held.
    destruct (Z.geb_spec (Z.of_nat (length b')) B) as [Hge|Hnge].
    + pose proof (flush_resources env b' (set_held (held w ++ [length b']) w))
        as (Hh & _).
      destruct (write_transaction env (create_product_nodes env) b'
                  (set_held (held w ++ [length b']) w)) as [[[]|e] w1];
        simpl in Hh |- *.
      * destruct (IH [] (set_held (held w1 ++ [0]) w1)) as (t & Ht & Hok);
          [simpl; lia|].
        exists (length b' :: 0 :: t). split.
        -- rewrite Ht. simpl. rewrite Hh, <- !app_assoc. reflexivity.
        -- simpl in Hok |- *. rewrite Hstep.
           split; [exact Hb'|]. split; [lia|].
           destruct (Z.geb_spec (Z.of_nat (length b')) B); [|lia].
           split; [reflexivity|]. split; [lia|exact Hok].
      * exists [length b']. split; [exact Hh|].
        simpl. rewrite Hstep. split; [exact Hb'|]. split; [lia|exact I].
    + destruct (IH b' (set_held (held w ++ [length b']) w)) as (t & Ht & Hok);
        [lia|].
      exists (length b' :: t). split.
      * rewrite Ht. simpl. rewrite <- app_assoc. reflexivity.
      * simpl. rewrite Hstep. split; [exact Hb'|]. split; [lia|exact Hok].
Qed.

Lemma load_csv_to_neo4j_held (self : Loader) (data : DataFrame) (B : Z)
    (w : World) :
  (0 < B)%Z ->
  exists t,
    held (snd (load_csv_to_neo4j env self data B w)) = held w ++ t /\
    trace_ok B 0 t.
Proof.
  intros HB.
  destruct (driver self) as [[]|] eqn:Hd.
  - destruct (session_raises env) as [e|] eqn:Hs.
    + rewrite (load_csv_to_neo4j_no_session env self data B w e Hd Hs).
      exists []. simpl. rewrite app_nil_r. auto.
    + unfold load_csv_to_neo4j, try_except, get_driver, with_session.
      rewrite Hd, Hs. unfold bind at 1. unfold ret at 1. unfold bind at 1.
      destruct (loading_loop_held B (iterrows data) [] (session_enter w) HB)
        as (t & Ht & Hok); [simpl; lia|].
      exists t. split; [|exact Hok].
      destruct (loading_loop env B (iterrows data) [] (session_enter w))
        as [[batch|e] w1]; simpl in Ht |- *; [|exact Ht].
      unfold bind.
      destruct batch as [|d batch]; [exact Ht|].
      pose proof (flush_resources env (d :: batch) w1) as (Hh & _).
      destruct (write_transaction env (create_product_nodes env) (d :: batch) w1)
        as [[[]|e] w2]; simpl in Hh |- *; congruence.
  - rewrite (load_csv_to_neo4j_no_driver env self data B w Hd).
    exists []. simpl. rewrite app_nil_r. auto.
Qed.

End Accumulator.

(** ** Payloads and nodes of [load_csv_to_neo4j] *)

Section Payloads.

Variable env : Env.

Lemma load_csv_to_neo4j_flushes_prefix (self : Loader) (data : DataFrame)
    (B : Z) (w : World) :
  exists n,
    flushed_by (load_csv_to_neo4j env self data B) w
    = take n (batches B (iterrows data)).
Proof.
  destruct (load_csv_to_neo4j_summary env self data B w)
    as (n & s & l & _ & Hf & _).
  exists n. unfold flushed_by. rewrite Hf. apply drop_app_length.
Qed.

Lemma load_csv_to_neo4j_flushes_all (self : Loader) (data : DataFrame)
    (B : Z) (w : World) :
  driver self = Some tt -> session_raises env = None ->
  (forall k, commit_raises env k = None) ->
  flushed_by (load_csv_to_neo4j env self data B) w
  = batches B (iterrows data) /\
  last (stdout (snd (load_csv_to_neo4j env self data B w))) = Some AllLoaded.
Proof.
  intros Hd Hs Hc.
  destruct (load_csv_to_neo4j_fields env self data B w Hd Hs)
    as (_ & H2 & _ & H4 & _).
  destruct (flush_seq_all env (batches B (iterrows data)) (session_enter w) Hc)
    as [Hok Hall].
  split.
  - unfold flushed_by. rewrite H2, Hall. apply drop_app_length.
  - rewrite H4, Hok. apply last_snoc.
Qed.

Lemma load_csv_to_neo4j_clean (self : Loader) (data : DataFrame)
    (B : Z) (w : World) :
  driver self = Some tt -> session_raises env = None ->
  (forall k, commit_raises env k = None) ->
  (forall k, tx_run_raises env k = None) ->
  created_by (load_csv_to_neo4j env self data B) w
  = unwind_create_set (to_dict <$> data) /\
  printed_by (load_csv_to_neo4j env self data B) w = [AllLoaded].
Proof.
  intros Hd Hs Hc Hr.
  destruct (load_csv_to_neo4j_fields env self data B w Hd Hs)
    as (_ & _ & H3 & H4 & _).
  destruct (flush_seq_all env (batches B (iterrows data)) (session_enter w) Hc)
    as [Hok _].
  destruct (flush_seq_clean env (batches B (iterrows data)) (session_enter w)
              Hc Hr) as [Hst Hout].
  split.
  - unfold created_by. rewrite H3, Hst, batches_concat, iterrows_rows.
    apply drop_app_length.
  - unfold printed_by. rewrite H4, Hout, Hok. apply drop_app_length.
Qed.

End Payloads.

(** ** The other methods and the script *)

Section Script.

Variable env : Env.

Lemma load_data_eq (self : Loader) (w : World) :
  load_data env self w =
  match FILE_PATH self with
  | None =>
      (Ok None, snd (print (UnexpectedError (AttributeError "FILE_PATH")) w))
  | Some path =>
      match read_csv env path with
      | Ok data => (Ok (Some data), snd (print CsvLoaded w))
      | Raise e => (Ok None, snd (print (load_data_except e) w))
      end
  end.
Proof.
  unfold load_data, try_except, get_FILE_PATH, bind.
  destruct (FILE_PATH self) as [path|]; simpl; [|reflexivity].
  destruct (read_csv env path) as [data|e]; reflexivity.
Qed.

Lemma load_csv_to_neo4j_returns (self : Loader) (data : DataFrame) (B : Z)
    (w : World) :
  load_csv_to_neo4j env self data B w
  = (Ok tt, snd (load_csv_to_neo4j env self data B w)).
Proof.
  destruct (load_csv_to_neo4j_summary env self data B w)
    as (n & s & l & H & _).
  destruct (load_csv_to_neo4j env self data B w) as [r w']; simpl in *.
  congruence.
Qed.

Lemma run_eq (self : Loader) (w : World) :
  run env self w =
  (Ok tt,
   match load_data env self w with
   | (Ok (Some data), w1) =>
       snd (load_csv_to_neo4j env self data default_batch_size w1)
   | (_, w1) => w1
   end).
Proof.
  unfold run, try_except, bind. rewrite load_data_eq.
  destruct (FILE_PATH self) as [path|]; [|reflexivity].
  destruct (read_csv env path) as [data|e]; [|reflexivity].
  rewrite load_csv_to_neo4j_returns. reflexivity.
Qed.

Lemma init_eq (URI USERNAME PASSWORD path : string) (w : World) :
  init env URI USERNAME PASSWORD path w =
  match connect_raises env with
  | Some e => (Ok (mkLoader None None), snd (print (DriverInitFailed e) w))
  | None =>
      (Ok (mkLoader (Some tt) (Some path)),
       snd (print DriverInitialized (driver_enter w)))
  end.
Proof.
  unfold init, try_except, bind.
  destruct (connect_raises env); reflexivity.
Qed.

Lemma close_eq (self : Loader) (w : World) :
  close env self w =
  (Ok tt,
   match driver self with
   | None => snd (print (CloseFailed (AttributeError "driver")) w)
   | Some _ =>
       snd (print (match close_raises env with
                   | Some e => CloseFailed e
                   | None => ConnectionClosed
                   end) (driver_exit w))
   end).
Proof.
  unfold close, try_except, get_driver, bind.
  destruct (driver self) as [[]|]; simpl; [|reflexivity].
  destruct (close_raises env); reflexivity.
Qed.

(** The script, case by case. *)
Lemma main_eq (config : Config) (w : World) :
  main env config w =
  (Ok tt,
   match connect_raises env with
   | Some e0 =>
       snd (print (CloseFailed (AttributeError "driver"))
              (snd (print (UnexpectedError (AttributeError "FILE_PATH"))
                      (snd (print (DriverInitFailed e0) w)))))
   | None =>
       let w1 := snd (print DriverInitialized (driver_enter w)) in
       let w2 :=
         match read_csv env (cfg_FILE_PATH config) with
         | Raise e => snd (print (load_data_except e) w1)
         | Ok data =>
             snd (load_csv_to_neo4j env
                    (mkLoader (Some tt) (Some (cfg_FILE_PATH config)))
                    data default_batch_size (snd (print CsvLoaded w1)))
         end in
       snd (print (match close_raises env with
                   | Some e => CloseFailed e
                   | None => ConnectionClosed
                   end) (driver_exit w2))
   end).
Proof.
  unfold main. unfold bind at 1. rewrite init_eq.
  destruct (connect_raises env) as [e0|].
  - unfold bind. rewrite run_eq, load_data_eq, close_eq. reflexivity.
  - unfold bind. rewrite run_eq, load_data_eq, close_eq. cbn [FILE_PATH driver].
    destruct (read_csv env (cfg_FILE_PATH config)); reflexivity.
Qed.

Lemma load_csv_to_neo4j_empty (self : Loader) (B : Z) (w : World) :
  driver self = Some tt -> session_raises env = None ->
  load_csv_to_neo4j env self [] B w
  = (Ok tt, session_exit (snd (print AllLoaded (session_enter w)))).
Proof.
  intros Hd Hs.
  unfold load_csv_to_neo4j, try_except, get_driver, with_session.
  rewrite Hd, Hs. reflexivity.
Qed.

End Script.

(** ** Counting the close lines *)

Lemma close_calls_app (l1 l2 : list Msg) :
  close_calls (l1 ++ l2) = close_calls l1 + close_calls l2.
Proof. unfold close_calls. rewrite List.filter_app, length_app. reflexivity. Qed.

Lemma close_calls_none (l : list Msg) :
  Forall (fun m => is_close_msg m = false) l -> close_calls l = 0.
Proof.
  unfold close_calls. induction 1 as [|m l Hm _ IH]; simpl.
  - reflexivity.
  - rewrite Hm. exact IH.
Qed.

Lemma load_data_except_not_close (e : exn) :
  is_close_msg (load_data_except e) = false.
Proof. destruct e; reflexivity. Qed.

(** ** The store after a run, whatever fails *)

Section Store.

Variable env : Env.

Lemma flush_seq_store (bs : list Batch) (w : World) :
  store (snd (flush_seq env bs w))
  = store w ++
    unwind_create_set (concat (committed env (length (flushed w)) bs)).
Proof.
  revert w. induction bs as [|b bs IH]; intros w.
  - simpl. rewrite app_nil_r. reflexivity.
  - cbn [flush_seq committed]. unfold bind.
    pose proof (flush_flushed env b w) as Hf.
    pose proof (flush_store env b w) as Hs.
    pose proof (flush_result env b w) as Hr.
    destruct (commit_raises env (length (flushed w))) as [e|].
    + destruct (flush env b w) as [[[]|e'] w1]; simpl in *; [discriminate|].
      exact Hs.
    + destruct (flush env b w) as [[[]|e'] w1]; simpl in *; [|discriminate].
      assert (Hlen : length (flushed w1) = S (length (flushed w))).
      { rewrite Hf, length_app. simpl. lia. }
      rewrite IH, Hlen, Hs, <- app_assoc. f_equal.
      unfold unwind_create_set. rewrite concat_app, map_app. f_equal.
      destruct (tx_run_raises env (length (flushed w))); simpl;
        rewrite ?app_nil_r; reflexivity.
Qed.

Lemma committed_sublist (k : nat) (bs : list Batch) :
  concat (committed env k bs) `sublist_of` concat bs.
Proof.
  revert k. induction bs as [|b bs IH]; intros k; simpl.
  - constructor.
  - destruct (commit_raises env k); [apply sublist_nil_l|].
    rewrite concat_app. apply sublist_app; [|apply IH].
    destruct (tx_run_raises env k); simpl.
    + apply sublist_nil_l.
    + rewrite app_nil_r. reflexivity.
Qed.

Lemma committed_none (k : nat) (bs : list Batch) :
  (forall k, tx_run_raises env k <> None) -> concat (committed env k bs) = [].
Proof.
  intros Hr. revert k. induction bs as [|b bs IH]; intros k; simpl.
  - reflexivity.
  - destruct (commit_raises env k); [reflexivity|].
    destruct (tx_run_raises env k) eqn:E; [|destruct (Hr k E)].
    simpl. apply IH.
Qed.

Lemma load_csv_to_neo4j_store (self : Loader) (data : DataFrame) (B : Z)
    (w : World) :
  store (snd (load_csv_to_neo4j env self data B w))
  = store w ++
    match driver self, session_raises env with
    | Some _, None =>
        unwind_create_set
          (concat (committed env (length (flushed w))
                     (batches B (iterrows data))))
    | _, _ => []
    end.
Proof.
  destruct (driver self) as [[]|] eqn:Hd.
  - destruct (session_raises env) as [e|] eqn:Hs.
    + rewrite (load_csv_to_neo4j_no_session env self data B w e Hd Hs).
      simpl. rewrite app_nil_r. reflexivity.
    + destruct (load_csv_to_neo4j_fields env self data B w Hd Hs)
        as (_ & _ & H3 & _).
      rewrite H3, flush_seq_store. reflexivity.
  - rewrite (load_csv_to_neo4j_no_driver env self data B w Hd).
    simpl. rewrite app_nil_r. reflexivity.
Qed.

End Store.

(** ** Batch sizes at the edges *)

Lemma batches_bounded (B : Z) (rows : list (nat * Row)) :
  (0 < B)%Z ->
  Forall (fun b : Batch => (Z.of_nat (length b) <= B)%Z) (batches B rows).
Proof.
  intros HB.
  assert (H : Forall (fun z => (z <= B)%Z)
                ((fun b : Batch => Z.of_nat (length b)) <$> batches B rows)).
  { rewrite batches_sizes by exact HB. cbv zeta.
    apply Forall_app. split.
    - apply Forall_replicate. lia.
    - pose proof (Z.mod_pos_bound (Z.of_nat (length rows)) B HB).
      destruct (Z.of_nat (length rows) mod B =? 0)%Z; repeat constructor. lia. }
  exact (proj1 (Forall_fmap (fun b : Batch => Z.of_nat (length b))
                  (fun z => (z <= B)%Z) (batches B rows)) H).
Qed.

Lemma in_loop_singletons (B : Z) (rows : list (nat * Row)) :
  (B <= 1)%Z ->
  in_loop B rows [] = (fun r : nat * Row => [to_dict r.2]) <$> rows /\
  left_over B rows [] = [].
Proof.
  intros HB. induction rows as [|[i row] rows [IH1 IH2]]; simpl.
  - auto.
  - destruct (Z.geb_spec (Z.of_nat 1) B) as [_|Hlt]; [|lia].
    rewrite IH1, IH2. auto.
Qed.

Lemma batches_singletons (B : Z) (rows : list (nat * Row)) :
  (B <= 1)%Z ->
  batches B rows = (fun r : nat * Row => [to_dict r.2]) <$> rows.
Proof.
  intros HB. unfold batches.
  destruct (in_loop_singletons B rows HB) as [-> ->].
  simpl. apply app_nil_r.
Qed.

Lemma batches_single (B : Z) (rows : list (nat * Row)) :
  (0 < Z.of_nat (length rows) <= B)%Z ->
  batches B rows = [to_dict <$> rows.*2].
Proof.
  intros HR.
  pose proof (batches_count B rows ltac:(lia)) as Hc.
  pose proof (batches_concat B rows) as Hcat.
  assert (H1 : ((Z.of_nat (length rows) + B - 1) / B = 1)%Z).
  { symmetry. apply Z.div_unique with (r := (Z.of_nat (length rows) - 1)%Z); lia. }
  rewrite H1 in Hc.
  destruct (batches B rows) as [|b [|b' bs]]; simpl in Hc; try lia.
  simpl in Hcat. rewrite app_nil_r in Hcat. rewrite Hcat. reflexivity.
Qed.

(** ** A failure in the middle of the sequence *)

Section Failures.

Variable env : Env.

(** After [m] commits that do not raise, the first [m + 1] batches have
    been submitted (or all of them, when there are fewer). *)
Lemma flush_seq_reaches (bs : list Batch) (w : World) (m : nat) :
  (forall k, k < m -> commit_raises env (length (flushed w) + k) = None) ->
  exists n,
    flushed (snd (flush_seq env bs w)) = flushed w ++ take n bs /\
    (S m <= n \/ length bs <= n).
Proof.
  revert w m. induction bs as [|b bs IH]; intros w m Hm.
  - exists 0. simpl. rewrite app_nil_r. split; [reflexivity|]. right. lia.
  - cbn [flush_seq]. unfold bind.
    pose proof (flush_flushed env b w) as Hf.
    pose proof (flush_result env b w) as Hr.
    destruct (flush env b w) as [[[]|e] w1]; simpl in Hf, Hr |- *.
    + assert (Hlen : length (flushed w1) = S (length (flushed w))).
      { rewrite Hf, length_app. simpl. lia. }
      destruct (IH w1 (pred m)) as (n & Hn & Hcase).
      { intros k Hk. rewrite Hlen.
        replace (S (length (flushed w)) + k) with (length (flushed w) + S k)
          by lia.
        apply Hm. lia. }
      exists (S n). split.
      * rewrite Hn, Hf, <- app_assoc. reflexivity.
      * simpl. lia.
    + exists 1. split.
      * rewrite Hf. simpl. rewrite take_0. reflexivity.
      * left. destruct m as [|m]; [lia|].
        pose proof (Hm 0 ltac:(lia)) as H0.
        rewrite Nat.add_0_r in H0. rewrite H0 in Hr. discriminate Hr.
Qed.

(** The first commit that raises ends the sequence, whatever [tx.run]
    did before. *)
Lemma flush_seq_stops (bs : list Batch) (w : World) (j : nat) (e : exn) :
  j < length bs ->
  commit_raises env (length (flushed w) + j) = Some e ->
  (forall k, k < j -> commit_raises env (length (flushed w) + k) = None) ->
  fst (flush_seq env bs w) = Raise e /\
  flushed (snd (flush_seq env bs w)) = flushed w ++ take (S j) bs.
Proof.
  revert w j. induction bs as [|b bs IH]; intros w j Hj He Hbefore;
    simpl in Hj; [lia|].
  cbn [flush_seq]. unfold bind.
  pose proof (flush_flushed env b w) as Hf.
  pose proof (flush_result env b w) as Hres.
  destruct j as [|j].
  - rewrite Nat.add_0_r in He. rewrite He in Hres.
    destruct (flush env b w) as [[[]|e'] w1]; simpl in *; [discriminate|].
    rewrite take_0. split; [congruence|assumption].
  - pose proof (Hbefore 0 ltac:(lia)) as Hc0.
    rewrite Nat.add_0_r in Hc0. rewrite Hc0 in Hres.
    destruct (flush env b w) as [[[]|e'] w1]; simpl in *; [|discriminate].
    assert (Hlen : length (flushed w1) = S (length (flushed w))).
    { rewrite Hf, length_app. simpl. lia. }
    destruct (IH w1 j) as (H1 & H2).
    + lia.
    + rewrite Hlen. rewrite <- He. f_equal. lia.
    + intros i Hi. rewrite Hlen.
      replace (S (length (flushed w)) + i) with (length (flushed w) + S i) by lia.
      apply Hbefore. lia.
    + split; [exact H1|]. rewrite H2, Hf, <- app_assoc. reflexivity.
Qed.

Lemma committed_take (k j : nat) (bs : list Batch) (e : exn) :
  commit_raises env (k + j) = Some e ->
  committed env k bs = committed env k (take j bs).
Proof.
  revert k j. induction bs as [|b bs IH]; intros k j He.
  - rewrite take_nil. reflexivity.
  - destruct j as [|j].
    + rewrite Nat.add_0_r in He. simpl. rewrite He. reflexivity.
    + simpl. destruct (commit_raises env k); [reflexivity|].
      f_equal. apply IH. rewrite <- He. f_equal. lia.
Qed.

(** A [tx.run] that raises in a transaction that is reached leaves its
    line in the output. *)
Lemma flush_seq_create_failed (bs : list Batch) (w : World) (i : nat)
    (e : exn) :
  i < length bs ->
  (forall k, k < i -> commit_raises env (length (flushed w) + k) = None) ->
  tx_run_raises env (length (flushed w) + i) = Some e ->
  exists l,
    stdout (snd (flush_seq env bs w)) = stdout w ++ l /\ CreateFailed e ∈ l.
Proof.
  revert w i. induction bs as [|b bs IH]; intros w i Hi Hbefore He;
    simpl in Hi; [lia|].
  cbn [flush_seq]. unfold bind.
  pose proof (flush_flushed env b w) as Hf.
  pose proof (flush_stdout env b w) as Ho.
  pose proof (flush_result env b w) as Hres.
  destruct i as [|i].
  - rewrite Nat.add_0_r in He. rewrite He in Ho.
    destruct (flush env b w) as [[[]|e'] w1]; simpl in *.
    + destruct (flush_seq_stdout env bs w1) as (l & Hl & _).
      exists (CreateFailed e :: l). split.
      * rewrite Hl, Ho, <- app_assoc. reflexivity.
      * apply elem_of_cons. left. reflexivity.
    + exists [CreateFailed e]. split; [exact Ho|].
      apply list_elem_of_singleton. reflexivity.
  - pose proof (Hbefore 0 ltac:(lia)) as Hc0.
    rewrite Nat.add_0_r in Hc0. rewrite Hc0 in Hres.
    destruct (flush env b w) as [[[]|e'] w1]; simpl in *; [|discriminate].
    assert (Hlen : length (flushed w1) = S (length (flushed w))).
    { rewrite Hf, length_app. simpl. lia. }
    destruct (IH w1 i) as (l & Hl & Hin).
    + lia.
    + intros k Hk. rewrite Hlen.
      replace (S (length (flushed w)) + k) with (length (flushed w) + S k) by lia.
      apply Hbefore. lia.
    + rewrite Hlen. rewrite <- He. f_equal. lia.
    + eexists. split.
      * rewrite Hl, Ho, <- app_assoc. reflexivity.
      * apply elem_of_app. right. exact Hin.
Qed.

(** What [load_csv_to_neo4j] does at a batch [i] that it reaches: the
    batch is submitted; a [tx.run] that raises leaves its line; and the
    commit decides whether the run ends there or goes on. *)
Lemma load_csv_to_neo4j_at_batch (self : Loader) (data : DataFrame) (B : Z)
    (w : World) (i : nat) :
  driver self = Some tt ->
  session_raises env = None ->
  flushed w = [] ->
  i < length (batches B (iterrows data)) ->
  (forall k, k < i -> commit_raises env k = None) ->
  let m := load_csv_to_neo4j env self data B in
  let bs := batches B (iterrows data) in
  flushed_by m w !! i = bs !! i /\
  match tx_run_raises env i with
  | Some e' => CreateFailed e' ∈ printed_by m w
  | None => True
  end /\
  match commit_raises env i with
  | Some e =>
      flushed_by m w = take (S i) bs /\
      store (snd (m w))
      = store w ++ unwind_create_set (concat (committed env 0 (take i bs))) /\
      last (printed_by m w) = Some (LoadFailed e)
  | None => take (S (S i)) (flushed_by m w) = take (S (S i)) bs
  end.
Proof.
  intros Hd Hs Hw Hi Hbefore m bs. subst m.
  destruct (load_csv_to_neo4j_fields env self data B w Hd Hs)
    as (_ & H2 & H3 & H4 & _).
  fold bs in H2, H3, H4.
  assert (Hw' : length (flushed (session_enter w)) = 0)
    by (simpl; rewrite Hw; reflexivity).
  assert (Hfw : flushed (session_enter w) = []) by exact Hw.
  assert (Hlen0 : length (flushed w) = 0) by (rewrite Hw; reflexivity).
  unfold flushed_by, printed_by. rewrite H2, H4, Hlen0, !drop_0.
  split; [|split].
  - destruct (flush_seq_reaches bs (session_enter w) i) as (n & Hn & Hcase).
    { intros k Hk. rewrite Hw'. apply Hbefore, Hk. }
    rewrite Hn, Hfw. simpl.
    destruct Hcase as [Hlt|Hge].
    + apply lookup_take_lt. lia.
    + rewrite take_ge by exact Hge. reflexivity.
  - destruct (tx_run_raises env i) as [e'|] eqn:Hrun; [|exact I].
    destruct (flush_seq_create_failed bs (session_enter w) i e' Hi)
      as (l & Hl & Hin).
    { intros k Hk. rewrite Hw'. apply Hbefore, Hk. }
    { rewrite Hw'. exact Hrun. }
    rewrite Hl. simpl stdout. rewrite <- app_assoc, drop_app_length.
    apply elem_of_app. left. exact Hin.
  - destruct (commit_raises env i) as [e|] eqn:Hci.
    + destruct (flush_seq_stops bs (session_enter w) i e Hi) as (Hr & Hf).
      { rewrite Hw'. exact Hci. }
      { intros k Hk. rewrite Hw'. apply Hbefore, Hk. }
      destruct (flush_seq_stdout env bs (session_enter w)) as (l & Hl & _).
      split; [|split].
      * rewrite Hf, Hfw. reflexivity.
      * rewrite H3, flush_seq_store, Hw'.
        rewrite (committed_take 0 i bs e Hci). reflexivity.
      * rewrite Hl, Hr. simpl stdout.
        rewrite <- app_assoc, drop_app_length. apply last_snoc.
    + destruct (flush_seq_reaches bs (session_enter w) (S i))
        as (n & Hn & Hcase).
      { intros k Hk. rewrite Hw'. simpl.
        destruct (decide (k = i)) as [->|Hne]; [exact Hci|].
        apply Hbefore. lia. }
      rewrite Hn, Hfw. simpl app.
      destruct Hcase as [Hlt|Hge].
      * rewrite take_take. f_equal. lia.
      * rewrite (take_ge bs n) by exact Hge. reflexivity.
Qed.

End Failures.

(** ** Full accumulators and payloads *)

Section Reached.

Variable env : Env.

(** In the loop, each time the accumulator reaches the batch size a write
    transaction is called on a payload of that length, and on nothing
    else. *)
Lemma loading_loop_reached (B : Z) (rows : list (nat * Row)) (batch : Batch)
    (w : World) :
  (0 < B)%Z -> (Z.of_nat (length batch) < B)%Z ->
  exists t fl,
    held (snd (loading_loop env B rows batch w)) = held w ++ t /\
    flushed (snd (loading_loop env B rows batch w)) = flushed w ++ fl /\
    length <$> fl = List.filter (reached B) t /\
    List.filter (fun b : Batch => reached B (length b)) fl = fl /\
    match fst (loading_loop env B rows batch w) with
    | Ok rest => reached B (length rest) = false
    | Raise _ => True
    end.
Proof.
  intros HB. revert batch w.
  induction rows as [|[i row] rows IH]; intros batch w Hlt.
  - exists [], []. simpl. rewrite !app_nil_r. repeat split.
    unfold reached. apply Z.leb_gt. exact Hlt.
  - cbn [loading_loop]. set (b' := batch ++ [to_dict row]).
    assert (Hb' : length b' = S (length batch)).
    { unfold b'. rewrite length_app. simpl. lia. }
    unfold bind, note_held.
    destruct (Z.geb_spec (Z.of_nat (length b')) B) as [Hge|Hnge].
    + assert (Hfull : reached B (length b') = true)
        by (unfold reached; apply Z.leb_le; lia).
      pose proof (flush_resources env b' (set_held (held w ++ [length b']) w))
        as (Hh & _).
      pose proof (flush_flushed env b' (set_held (held w ++ [length b']) w))
        as Hf.
      destruct (write_transaction env (create_product_nodes env) b'
                  (set_held (held w ++ [length b']) w)) as [[[]|e] w1];
        simpl in Hh, Hf |- *.
      * destruct (IH [] (set_held (held w1 ++ [0]) w1))
          as (t & fl & Ht & Hfl & Hsz & Hall & Hleft); [simpl; lia|].
        exists (length b' :: 0 :: t), (b' :: fl). simpl in Hfl.
        split; [rewrite Ht; simpl; rewrite Hh, <- !app_assoc; reflexivity|].
        split; [rewrite Hfl, Hf, <- app_assoc; reflexivity|].
        assert (H0 : reached B 0 = false)
          by (unfold reached; apply Z.leb_gt; lia).
        split; [|split].
        -- rewrite fmap_cons. cbn [List.filter].
           rewrite Hfull, H0, Hsz. reflexivity.
        -- cbn [List.filter]. rewrite Hfull, Hall. reflexivity.
        -- exact Hleft.
      * exists [length b'], [b']. split; [exact Hh|]. split; [exact Hf|].
        cbn [List.filter]. rewrite Hfull. auto.
    + assert (Hnot : reached B (length b') = false)
        by (unfold reached; apply Z.leb_gt; lia).
      destruct (IH b' (set_held (held w ++ [length b']) w))
        as (t & fl & Ht & Hfl & Hsz & Hall & Hleft); [lia|].
      exists (length b' :: t), fl. simpl in Hfl.
      split; [rewrite Ht; simpl; rewrite <- app_assoc; reflexivity|].
      split; [exact Hfl|].
      split; [|split].
      * cbn [List.filter]. rewrite Hnot. exact Hsz.
      * exact Hall.
      * exact Hleft.
Qed.

Lemma load_csv_to_neo4j_reached (self : Loader) (data : DataFrame) (B : Z)
    (w : World) :
  (0 < B)%Z ->
  length <$> List.filter (fun b : Batch => reached B (length b))
               (flushed_by (load_csv_to_neo4j env self data B) w)
  = List.filter (reached B) (held_by (load_csv_to_neo4j env self data B) w).
Proof.
  intros HB. unfold flushed_by, held_by.
  destruct (driver self) as [[]|] eqn:Hd.
  - destruct (session_raises env) as [e|] eqn:Hs.
    + rewrite (load_csv_to_neo4j_no_session env self data B w e Hd Hs).
      simpl. rewrite !drop_all. reflexivity.
    + unfold load_csv_to_neo4j, try_except, get_driver, with_session.
      rewrite Hd, Hs. unfold bind, ret. cbv beta iota.
      destruct (loading_loop_reached B (iterrows data) [] (session_enter w) HB)
        as (t & fl & Ht & Hfl & Hsz & Hall & Hleft); [simpl; lia|].
      simpl in Ht, Hfl.
      destruct (loading_loop env B (iterrows data) [] (session_enter w))
        as [[batch|e] w1]; simpl in Ht, Hfl, Hleft |- *.
      * destruct batch as [|d batch].
        -- simpl. rewrite Ht, Hfl, !drop_app_length, Hall. exact Hsz.
        -- pose proof (flush_resources env (d :: batch) w1) as (Hh & _).
           pose proof (flush_flushed env (d :: batch) w1) as Hf.
           destruct (write_transaction env (create_product_nodes env)
                       (d :: batch) w1) as [[[]|e] w2];
             simpl in Hh, Hf |- *;
             rewrite Hh, Hf, Ht, Hfl, <- app_assoc, !drop_app_length,
               List.filter_app, Hall;
             simpl; simpl in Hleft; rewrite Hleft, app_nil_r; exact Hsz.
      * rewrite Ht, Hfl, !drop_app_length, Hall. exact Hsz.
  - rewrite (load_csv_to_neo4j_no_driver env self data B w Hd).
    simpl. rewrite !drop_all. reflexivity.
Qed.

End Reached.

(** ** Rows before and after [iterrows] *)



(** * The claims *)

(** C1. On a loader with a driver, when the session opens and no write
    transaction raises, [load_csv_to_neo4j] on [R] rows with a positive
    batch size [B] calls [write_transaction] exactly [ceil (R / B)] times,
    that is [(R + B - 1) / B]; the payloads have [B] records each, [R / B]
    times, followed by one of [R mod B] records when that is not zero.  For
    2500 rows and [B = 1000] the sizes are 1000, 1000, 500. *)
Theorem C1_flush_count_and_sizes (env : Env) (self : Loader)
    (data : DataFrame) (B : Z) (w : World) :
  driver self = Some tt ->
  session_raises env = None ->
  (forall k, commit_raises env k = None) ->
  (0 < B)%Z ->
  let fl := flushed_by (load_csv_to_neo4j env self data B) w in
  let R := Z.of_nat (length data) in
  Z.of_nat (length fl) = ((R + B - 1) / B)%Z /\
  (fun b : Batch => Z.of_nat (length b)) <$> fl
  = replicate (Z.to_nat (R / B)) B ++
    (if (R mod B =? 0)%Z then [] else [(R mod B)%Z]) /\
  (length data = 2500 -> B = 1000%Z ->
   (fun b : Batch => Z.of_nat (length b)) <$> fl = [1000; 1000; 500]%Z).
Proof.
  intros Hd Hs Hc HB fl R.
  destruct (load_csv_to_neo4j_flushes_all env self data B w Hd Hs Hc)
    as [Hfl _].
  fold fl in Hfl.
  assert (Hlen : length (iterrows data) = length data).
  { unfold iterrows. apply length_imap. }
  pose proof (batches_count B (iterrows data) HB) as Hcount.
  pose proof (batches_sizes B (iterrows data) HB) as Hsizes.
  cbv zeta in Hsizes. rewrite Hlen in Hcount, Hsizes. fold R in Hcount, Hsizes.
  rewrite Hfl. split; [exact Hcount|]. split; [exact Hsizes|].
  intros H2500 ->. rewrite Hsizes. unfold R. rewrite H2500. reflexivity.
Qed.

Lemma C1_witness :
  (fun b : Batch => Z.of_nat (length b)) <$>
    flushed_by (load_csv_to_neo4j env_ok loader_ok data_2500 1000) init_world
  = [1000; 1000; 500]%Z.
Proof.
  destruct (C1_flush_count_and_sizes env_ok loader_ok data_2500 1000 init_world
              eq_refl eq_refl (fun _ => eq_refl) eq_refl) as (_ & _ & H).
  apply H; reflexivity.
Defined.

(** C2 as it is written fails: with [tx.run] raising in the second of three
    one-record batches, the first failing write is that of batch 1, and
    the third batch is submitted all the same. *)
Lemma C2_counterexample :
  ~ stops_at_failed_batch env_tx_run_fails_second loader_ok sample_data 1.
Proof.
  intros H. specialize (H 1).
  assert (Hlen : 1 < length (batches 1 (iterrows sample_data)))
    by (vm_compute; lia).
  assert (Hfirst : first_failure env_tx_run_fails_second 1).
  { split.
    - exists (OtherError "write failed"). left. reflexivity.
    - intros i Hi. assert (i = 0) as -> by lia. split; reflexivity. }
  specialize (H Hlen Hfirst).
  apply (f_equal length) in H. vm_compute in H. discriminate H.
Qed.

(** C2, as the code has it.  Take a batch [i] that the loop reaches (no
    commit before it raised).  It is submitted.  When its commit raises, so
    that [session.write_transaction] itself raises, the run ends there: the
    payloads are the first [i + 1] batches and no other (the failing batch
    once, none after it), the store holds what it held plus the nodes of the
    earlier batches whose [tx.run] did not raise, the last line printed is
    [LoadFailed], and the method returns normally.  When its commit does not
    raise, the loop goes on to the next batch, also when [tx.run] raised in
    it: that exception is caught in [create_product_nodes], which prints
    [CreateFailed]. *)
Theorem C2_failed_batch (env : Env) (self : Loader)
    (data : DataFrame) (B : Z) (w : World) (i : nat) :
  driver self = Some tt ->
  session_raises env = None ->
  flushed w = [] ->
  i < length (batches B (iterrows data)) ->
  (forall k, k < i -> commit_raises env k = None) ->
  let m := load_csv_to_neo4j env self data B in
  let bs := batches B (iterrows data) in
  fst (m w) = Ok tt /\
  flushed_by m w !! i = bs !! i /\
  match commit_raises env i with
  | Some e =>
      flushed_by m w = take (S i) bs /\
      store (snd (m w))
      = store w ++ unwind_create_set (concat (committed env 0 (take i bs))) /\
      last (printed_by m w) = Some (LoadFailed e)
  | None =>
      take (S (S i)) (flushed_by m w) = take (S (S i)) bs /\
      match tx_run_raises env i with
      | Some e' => CreateFailed e' ∈ printed_by m w
      | None => True
      end
  end.
Proof.
  intros Hd Hs Hw Hi Hbefore m bs.
  destruct (load_csv_to_neo4j_at_batch env self data B w i Hd Hs Hw Hi Hbefore)
    as (Hsub & Hrun & Hcommit).
  fold m bs in Hsub, Hrun, Hcommit.
  split; [unfold m; rewrite load_csv_to_neo4j_returns; reflexivity|].
  split; [exact Hsub|].
  destruct (commit_raises env i); [exact Hcommit|].
  split; [exact Hcommit | exact Hrun].
Qed.

Lemma C2_witness :
  flushed_by (load_csv_to_neo4j env_commit_fails_second loader_ok sample_data 1)
    init_world
  = take 2 (batches 1 (iterrows sample_data)) /\
  take 3
    (flushed_by
       (load_csv_to_neo4j env_tx_run_fails_second loader_ok sample_data 1)
       init_world)
  = take 3 (batches 1 (iterrows sample_data)).
Proof.
  assert (Hi : 1 < length (batches 1 (iterrows sample_data)))
    by (vm_compute; lia).
  assert (H1 : forall k, k < 1 -> commit_raises env_commit_fails_second k = None).
  { intros k Hk. assert (k = 0) as -> by lia. reflexivity. }
  assert (H2 : forall k, k < 1 -> commit_raises env_tx_run_fails_second k = None).
  { intros k Hk. reflexivity. }
  split.
  - exact (proj1 (proj2 (proj2
      (C2_failed_batch env_commit_fails_second loader_ok sample_data 1
         init_world 1 eq_refl eq_refl eq_refl Hi H1)))).
  - exact (proj1 (proj2 (proj2
      (C2_failed_batch env_tx_run_fails_second loader_ok sample_data 1
         init_world 1 eq_refl eq_refl eq_refl Hi H2)))).
Defined.

(** C3. In a run without failure every record read from the source is in
    exactly one submitted batch and every batch is submitted once: the
    payloads of the write transactions are the batches of the rows, their
    concatenation is the sequence of the rows' records in source order, and
    the nodes created are those of the records in that order. *)
Theorem C3_each_record_in_one_batch_in_order (env : Env) (self : Loader)
    (data : DataFrame) (B : Z) (w : World) :
  driver self = Some tt ->
  session_raises env = None ->
  (forall k, commit_raises env k = None) ->
  (forall k, tx_run_raises env k = None) ->
  let m := load_csv_to_neo4j env self data B in
  flushed_by m w = batches B (iterrows data) /\
  concat (flushed_by m w) = to_dict <$> data /\
  created_by m w = unwind_create_set (to_dict <$> data).
Proof.
  intros Hd Hs Hc Hr m. subst m.
  destruct (load_csv_to_neo4j_flushes_all env self data B w Hd Hs Hc)
    as [Hfl _].
  destruct (load_csv_to_neo4j_clean env self data B w Hd Hs Hc Hr)
    as [Hst _].
  rewrite Hfl, batches_concat, iterrows_rows. auto.
Qed.

Lemma C3_witness :
  concat (flushed_by (load_csv_to_neo4j env_ok loader_ok sample_data 2)
            init_world)
  = to_dict <$> sample_data.
Proof.
  exact (proj1 (proj2
    (C3_each_record_in_one_batch_in_order env_ok loader_ok sample_data 2
       init_world eq_refl eq_refl (fun _ => eq_refl) (fun _ => eq_refl)))).
Defined.





(** C7. For a positive batch size [B] the accumulator never holds more than
    [B] records: every length it takes during [load_csv_to_neo4j] is at most
    [B]; it grows by one record at a time, and once its length has reached
    [B] its next change is the reset to empty; and each time it reached [B]
    a write transaction was called on a payload of that length, these being
    all the payloads of [B] records or more. *)
Theorem C7_accumulator_bounded_and_flushed (env : Env) (self : Loader)
    (data : DataFrame) (B : Z) (w : World) :
  (0 < B)%Z ->
  let t := held_by (load_csv_to_neo4j env self data B) w in
  let fl := flushed_by (load_csv_to_neo4j env self data B) w in
  Forall (fun n => (Z.of_nat n <= B)%Z) t /\
  trace_ok B 0 t /\
  length <$> List.filter (fun b : Batch => reached B (length b)) fl
  = List.filter (reached B) t.
Proof.
  intros HB t fl. subst t fl.
  destruct (load_csv_to_neo4j_held env self data B w HB) as (t & Ht & Hok).
  split; [|split].
  - unfold held_by. rewrite Ht, drop_app_length.
    eapply trace_ok_bound. exact Hok.
  - unfold held_by. rewrite Ht, drop_app_length. exact Hok.
  - apply load_csv_to_neo4j_reached, HB.
Qed.

Lemma C7_witness :
  let t := held_by (load_csv_to_neo4j env_ok loader_ok sample_data 2)
             init_world in
  let fl := flushed_by (load_csv_to_neo4j env_ok loader_ok sample_data 2)
              init_world in
  Forall (fun n => (Z.of_nat n <= 2)%Z) t /\
  length <$> List.filter (fun b : Batch => reached 2 (length b)) fl
  = List.filter (reached 2) t.
Proof.
  destruct (C7_accumulator_bounded_and_flushed env_ok loader_ok sample_data 2
              init_world eq_refl) as (H1 & _ & H3).
  split; [exact H1 | exact H3].
Defined.

(** C8. No payload of a write transaction is empty, for every environment,
    row sequence and batch size (the positive ones among them). *)
Theorem C8_no_empty_batch (env : Env) (self : Loader) (data : DataFrame)
    (B : Z) (w : World) :
  Forall (fun b : Batch => b <> [])
    (flushed_by (load_csv_to_neo4j env self data B) w).
Proof.
  destruct (load_csv_to_neo4j_flushes_prefix env self data B w) as [n ->].
  apply Forall_take, batches_nonempty.
Qed.




(** C5. When [pd.read_csv] raises on the loader's file, [load_data] prints
    the line of the matching [except] clause and returns [None] to [run],
    which then does nothing more: no write transaction is called, no node is
    created and no session is opened, by [run] and by the whole script. *)
Theorem C5_unreadable_source (env : Env) (config : Config) (self : Loader)
    (e : exn) (w : World) :
  FILE_PATH self = Some (cfg_FILE_PATH config) ->
  read_csv env (cfg_FILE_PATH config) = Raise e ->
  load_data env self w = (Ok None, snd (print (load_data_except e) w)) /\
  run env self w = (Ok tt, snd (print (load_data_except e) w)) /\
  flushed_by (run env self) w = [] /\
  created_by (run env self) w = [] /\
  printed_by (run env self) w = [load_data_except e] /\
  flushed_by (main env config) w = [] /\
  created_by (main env config) w = [] /\
  sessions_opened (snd (main env config w)) = sessions_opened w.
Proof.
  intros Hp He.
  assert (Hld : load_data env self w
                = (Ok None, snd (print (load_data_except e) w))).
  { rewrite load_data_eq, Hp, He. reflexivity. }
  assert (Hrun : run env self w = (Ok tt, snd (print (load_data_except e) w))).
  { rewrite run_eq, Hld. reflexivity. }
  split; [exact Hld|]. split; [exact Hrun|].
  unfold flushed_by, created_by, printed_by. rewrite Hrun, main_eq, He.
  simpl. rewrite !drop_all, drop_app_length.
  repeat split; destruct (connect_raises env); simpl; apply drop_all || reflexivity.
Qed.

Lemma C5_witness :
  flushed_by (main env_no_file sample_config) init_world = [] /\
  printed_by (run env_no_file loader_ok) init_world = [FileNotFoundMsg].
Proof.
  destruct (C5_unreadable_source env_no_file sample_config loader_ok
              FileNotFoundError init_world eq_refl eq_refl)
    as (_ & _ & _ & _ & Hp & Hf & _).
  split; [exact Hf | exact Hp].
Defined.

(** C6. With a source that has no data row, and a driver, a session and a
    close that work, the script calls no write transaction and creates no
    node; it prints the success lines and no other, ends normally, and has
    opened and closed one session and one driver. *)
Theorem C6_empty_source (env : Env) (config : Config) (w : World) :
  read_csv env (cfg_FILE_PATH config) = Ok [] ->
  connect_raises env = None ->
  session_raises env = None ->
  close_raises env = None ->
  let r := main env config w in
  fst r = Ok tt /\
  flushed_by (main env config) w = [] /\
  created_by (main env config) w = [] /\
  printed_by (main env config) w
  = [DriverInitialized; CsvLoaded; AllLoaded; ConnectionClosed] /\
  sessions_opened (snd r) = S (sessions_opened w) /\
  sessions_closed (snd r) = S (sessions_closed w) /\
  drivers_opened (snd r) = S (drivers_opened w) /\
  driver_close_calls (snd r) = S (driver_close_calls w).
Proof.
  intros Hcsv Hconn Hs Hcl r. subst r.
  unfold flushed_by, created_by, printed_by.
  rewrite main_eq, Hcsv, Hconn, Hcl. cbv zeta.
  rewrite load_csv_to_neo4j_empty by (reflexivity || exact Hs).
  simpl. rewrite !drop_all.
  repeat split.
  rewrite <- !app_assoc. apply drop_app_length.
Qed.

Lemma C6_witness :
  flushed_by (main env_empty_file sample_config) init_world = [] /\
  printed_by (main env_empty_file sample_config) init_world
  = [DriverInitialized; CsvLoaded; AllLoaded; ConnectionClosed].
Proof.
  destruct (C6_empty_source env_empty_file sample_config init_world
              eq_refl eq_refl eq_refl eq_refl)
    as (_ & Hf & _ & Hp & _).
  split; [exact Hf | exact Hp].
Defined.

(** C9. Whatever the driver, pandas and the store do, the script ends
    normally and [loader.close()] is run exactly once, as its last step: one
    close line is printed, and it is the last line.  [driver.close()] is
    called as many times as a driver was created (once, or never when
    [GraphDatabase.driver] raised), and as many sessions were closed as
    were opened. *)
Theorem C9_close_attempted_once (env : Env) (config : Config) (w : World) :
  let r := main env config w in
  let d := match connect_raises env with Some _ => 0 | None => 1 end in
  fst r = Ok tt /\
  close_calls (printed_by (main env config) w) = 1 /\
  (is_close_msg <$> last (printed_by (main env config) w)) = Some true /\
  drivers_opened (snd r) = drivers_opened w + d /\
  driver_close_calls (snd r) = driver_close_calls w + d /\
  exists s,
    sessions_opened (snd r) = sessions_opened w + s /\
    sessions_closed (snd r) = sessions_closed w + s.
Proof.
  intros r d. subst r d. unfold printed_by. rewrite main_eq.
  destruct (connect_raises env) as [e0|]; cbn [fst snd].
  - simpl. rewrite <- !app_assoc, drop_app_length, !Nat.add_0_r.
    repeat split. exists 0. rewrite !Nat.add_0_r. auto.
  - cbv zeta.
    set (c := match close_raises env with
              | Some e => CloseFailed e
              | None => ConnectionClosed
              end).
    assert (Hc : is_close_msg c = true)
      by (unfold c; destruct (close_raises env); reflexivity).
    destruct (read_csv env (cfg_FILE_PATH config)) as [data|e].
    + destruct (load_csv_to_neo4j_summary env
                  (mkLoader (Some tt) (Some (cfg_FILE_PATH config))) data
                  default_batch_size
                  (snd (print CsvLoaded
                          (snd (print DriverInitialized (driver_enter w))))))
        as (n & s & l & _ & _ & Hout & Hl & Hso & Hsc & Hdo & Hdc).
      simpl in Hout, Hso, Hsc, Hdo, Hdc |- *.
      rewrite Hout, Hso, Hsc, Hdo, Hdc, <- !app_assoc, drop_app_length.
      split; [reflexivity|]. split; [|split; [|split; [|split]]].
      * rewrite !close_calls_app, (close_calls_none l Hl).
        unfold close_calls. simpl. rewrite Hc. reflexivity.
      * rewrite !app_assoc, last_snoc. simpl. rewrite Hc. reflexivity.
      * lia.
      * lia.
      * exists s. auto.
    + simpl. rewrite <- !app_assoc, drop_app_length.
      split; [reflexivity|]. split; [|split; [|split; [|split]]].
      * unfold close_calls. simpl.
        rewrite load_data_except_not_close, Hc. reflexivity.
      * simpl. rewrite Hc. reflexivity.
      * lia.
      * lia.
      * exists 0. rewrite !Nat.add_0_r. auto.
Qed.

(** * Further properties of the loader *)

Section Further.

Variable env : Env.

Lemma committed_all (k : nat) (bs : list Batch) :
  (forall k, commit_raises env k = None) ->
  (forall k, tx_run_raises env k = None) ->
  committed env k bs = bs.
Proof.
  intros Hc Hr. revert k. induction bs as [|b bs IH]; intros k; simpl.
  - reflexivity.
  - rewrite Hc, Hr, IH. reflexivity.
Qed.

(** The world after a load in which nothing fails. *)
Lemma load_csv_to_neo4j_clean_world (self : Loader) (data : DataFrame)
    (B : Z) (w : World) :
  driver self = Some tt -> session_raises env = None ->
  (forall k, commit_raises env k = None) ->
  (forall k, tx_run_raises env k = None) ->
  let w' := snd (load_csv_to_neo4j env self data B w) in
  flushed w' = flushed w ++ batches B (iterrows data) /\
  store w' = store w ++ unwind_create_set (to_dict <$> data) /\
  stdout w' = stdout w ++ [AllLoaded].
Proof.
  intros Hd Hs Hc Hr w'. subst w'.
  destruct (load_csv_to_neo4j_fields env self data B w Hd Hs)
    as (_ & H2 & _ & H4 & _).
  destruct (flush_seq_all env (batches B (iterrows data)) (session_enter w) Hc)
    as [Hok Hall].
  destruct (flush_seq_clean env (batches B (iterrows data)) (session_enter w)
              Hc Hr) as [_ Hout].
  rewrite load_csv_to_neo4j_store, Hd, Hs, committed_all by assumption.
  rewrite batches_concat, iterrows_rows, H2, Hall, H4, Hout, Hok. auto.
Qed.

(** The script after a file that was read, in terms of the load. *)
Lemma main_loaded (config : Config) (data : DataFrame) (w : World) :
  connect_raises env = None ->
  read_csv env (cfg_FILE_PATH config) = Ok data ->
  let w1 := snd (print CsvLoaded
                   (snd (print DriverInitialized (driver_enter w)))) in
  let wl := snd (load_csv_to_neo4j env
                   (mkLoader (Some tt) (Some (cfg_FILE_PATH config)))
                   data default_batch_size w1) in
  let r := main env config w in
  fst r = Ok tt /\
  flushed (snd r) = flushed wl /\
  store (snd r) = store wl /\
  stdout (snd r)
  = stdout wl ++ [match close_raises env with
                  | Some e => CloseFailed e
                  | None => ConnectionClosed
                  end] /\
  sessions_opened (snd r) = sessions_opened wl.
Proof.
  intros Hconn Hcsv w1 wl r. subst r wl w1.
  rewrite main_eq, Hconn, Hcsv. simpl. auto.
Qed.

Lemma main_clean_world (config : Config) (data : DataFrame) (w : World) :
  connect_raises env = None ->
  read_csv env (cfg_FILE_PATH config) = Ok data ->
  session_raises env = None ->
  (forall k, commit_raises env k = None) ->
  (forall k, tx_run_raises env k = None) ->
  let r := main env config w in
  fst r = Ok tt /\
  flushed (snd r) = flushed w ++ batches default_batch_size (iterrows data) /\
  store (snd r) = store w ++ unwind_create_set (to_dict <$> data) /\
  stdout (snd r)
  = stdout w ++ [DriverInitialized; CsvLoaded; AllLoaded;
                 match close_raises env with
                 | Some e => CloseFailed e
                 | None => ConnectionClosed
                 end].
Proof.
  intros Hconn Hcsv Hs Hc Hr r. subst r.
  destruct (main_loaded config data w Hconn Hcsv) as (H1 & H2 & H3 & H4 & _).
  destruct (load_csv_to_neo4j_clean_world
              (mkLoader (Some tt) (Some (cfg_FILE_PATH config))) data
              default_batch_size
              (snd (print CsvLoaded
                      (snd (print DriverInitialized (driver_enter w)))))
              eq_refl Hs Hc Hr) as (Hf & Hst & Hout).
  rewrite H2, H3, H4, Hf, Hst, Hout. simpl.
  rewrite <- !app_assoc. auto.
Qed.

End Further.

(** X1. Whatever fails, the write transactions are called on an initial
    part of the batches of the rows, each once and in order: the records
    submitted are an initial part of the rows' records.  The loader never
    repeats, skips or reorders a batch. *)
Theorem X1_payloads_initial_part (env : Env) (self : Loader)
    (data : DataFrame) (B : Z) (w : World) :
  let fl := flushed_by (load_csv_to_neo4j env self data B) w in
  (exists n, fl = take n (batches B (iterrows data))) /\
  concat fl `prefix_of` (to_dict <$> data).
Proof.
  intros fl. subst fl.
  destruct (load_csv_to_neo4j_flushes_prefix env self data B w) as [n Hn].
  split; [exists n; exact Hn|].
  rewrite Hn. exists (concat (drop n (batches B (iterrows data)))).
  rewrite <- concat_app, take_drop, batches_concat, iterrows_rows.
  reflexivity.
Qed.

(** X2. For a positive batch size [B] no write transaction carries more
    than [B] records, whatever fails. *)
Theorem X2_payload_size_bounded (env : Env) (self : Loader)
    (data : DataFrame) (B : Z) (w : World) :
  (0 < B)%Z ->
  Forall (fun b : Batch => (Z.of_nat (length b) <= B)%Z)
    (flushed_by (load_csv_to_neo4j env self data B) w).
Proof.
  intros HB.
  destruct (load_csv_to_neo4j_flushes_prefix env self data B w) as [n ->].
  apply Forall_take, batches_bounded, HB.
Qed.

Lemma X2_witness :
  Forall (fun b : Batch => (Z.of_nat (length b) <= 2)%Z)
    (flushed_by (load_csv_to_neo4j env_commit_fails_second loader_ok
                   sample_data 2) init_world).
Proof.
  exact (X2_payload_size_bounded env_commit_fails_second loader_ok sample_data
           2 init_world eq_refl).
Defined.

(** X3. With a batch size of 1 or less (zero and negative sizes included)
    the test [len(batch) >= batch_size] holds after every append, so each
    row is submitted alone, in its own write transaction. *)
Theorem X3_batch_size_at_most_one (env : Env) (self : Loader)
    (data : DataFrame) (B : Z) (w : World) :
  driver self = Some tt ->
  session_raises env = None ->
  (forall k, commit_raises env k = None) ->
  (B <= 1)%Z ->
  flushed_by (load_csv_to_neo4j env self data B) w
  = (fun row : Row => [to_dict row]) <$> data.
Proof.
  intros Hd Hs Hc HB.
  destruct (load_csv_to_neo4j_flushes_all env self data B w Hd Hs Hc)
    as [-> _].
  rewrite batches_singletons by exact HB.
  rewrite <- (iterrows_rows data) at 2.
  rewrite <- list_fmap_compose. reflexivity.
Qed.

Lemma X3_witness :
  flushed_by (load_csv_to_neo4j env_ok loader_ok sample_data (-5)) init_world
  = (fun row : Row => [to_dict row]) <$> sample_data.
Proof.
  exact (X3_batch_size_at_most_one env_ok loader_ok sample_data (-5)
           init_world eq_refl eq_refl (fun _ => eq_refl) ltac:(lia)).
Defined.

(** X4. When there is at least one row and the batch size is at least the
    number of rows, all records go in one write transaction. *)
Theorem X4_one_batch_when_rows_fit (env : Env) (self : Loader)
    (data : DataFrame) (B : Z) (w : World) :
  driver self = Some tt ->
  session_raises env = None ->
  (forall k, commit_raises env k = None) ->
  (0 < Z.of_nat (length data) <= B)%Z ->
  flushed_by (load_csv_to_neo4j env self data B) w = [to_dict <$> data].
Proof.
  intros Hd Hs Hc HR.
  destruct (load_csv_to_neo4j_flushes_all env self data B w Hd Hs Hc)
    as [-> _].
  rewrite batches_single, iterrows_rows; [reflexivity|].
  unfold iterrows. rewrite length_imap. exact HR.
Qed.

Lemma X4_witness :
  flushed_by (load_csv_to_neo4j env_ok loader_ok sample_data 3) init_world
  = [to_dict <$> sample_data].
Proof.
  exact (X4_one_batch_when_rows_fit env_ok loader_ok sample_data 3 init_world
           eq_refl eq_refl (fun _ => eq_refl) ltac:(simpl; lia)).
Defined.

(** X5. What a load leaves in the store under any pattern of failures: on a
    loader with a driver and a session that opens, the nodes created are
    those of the batches whose [tx.run] did not raise, up to the first
    commit that raises.  A batch whose [tx.run] raised is left out and the
    batches after it are still written. *)
Theorem X5_store_after_failures (env : Env) (self : Loader)
    (data : DataFrame) (B : Z) (w : World) :
  driver self = Some tt ->
  session_raises env = None ->
  created_by (load_csv_to_neo4j env self data B) w
  = unwind_create_set
      (concat (committed env (length (flushed w)) (batches B (iterrows data)))).
Proof.
  intros Hd Hs. unfold created_by.
  rewrite load_csv_to_neo4j_store, Hd, Hs. apply drop_app_length.
Qed.

Lemma X5_witness :
  created_by (load_csv_to_neo4j env_tx_run_fails_second loader_ok
                sample_data 1) init_world
  = unwind_create_set [to_dict (sample_row 1); to_dict (sample_row 3)].
Proof.
  exact (X5_store_after_failures env_tx_run_fails_second loader_ok sample_data
           1 init_world eq_refl eq_refl).
Defined.

(** X6. Whatever fails, a load only adds to the store: the nodes that were
    there stay, in place, and the nodes added are nodes of the rows, each at
    most once and in source order. *)
Theorem X6_store_only_grows (env : Env) (self : Loader)
    (data : DataFrame) (B : Z) (w : World) :
  store w `prefix_of` store (snd (load_csv_to_neo4j env self data B w)) /\
  created_by (load_csv_to_neo4j env self data B) w
  `sublist_of` unwind_create_set (to_dict <$> data).
Proof.
  unfold created_by. rewrite load_csv_to_neo4j_store. split.
  - eexists. reflexivity.
  - rewrite drop_app_length.
    destruct (driver self) as [[]|]; [|apply sublist_nil_l].
    destruct (session_raises env); [apply sublist_nil_l|].
    rewrite <- (iterrows_rows data) at 2.
    rewrite <- (batches_concat B (iterrows data)).
    unfold unwind_create_set.
    apply (fmap_sublist (fun product => mkNode ["Product"] product)),
      committed_sublist.
Qed.

(** X7. When [GraphDatabase.driver] raises, [__init__] sets neither
    [self.driver] nor [self.FILE_PATH]; the script then prints the three
    failure lines of [__init__], [load_data] and [close], whatever the file
    holds, and touches neither store nor session nor driver. *)
Theorem X7_driver_not_created (env : Env) (config : Config) (w : World)
    (e : exn) :
  connect_raises env = Some e ->
  init env (cfg_URI config) (cfg_USERNAME config) (cfg_PASSWORD config)
    (cfg_FILE_PATH config) w
  = (Ok (mkLoader None None), snd (print (DriverInitFailed e) w)) /\
  printed_by (main env config) w
  = [DriverInitFailed e;
     UnexpectedError (AttributeError "FILE_PATH");
     CloseFailed (AttributeError "driver")] /\
  flushed_by (main env config) w = [] /\
  created_by (main env config) w = [] /\
  sessions_opened (snd (main env config w)) = sessions_opened w /\
  drivers_opened (snd (main env config w)) = drivers_opened w /\
  driver_close_calls (snd (main env config w)) = driver_close_calls w.
Proof.
  intros Hconn. split.
  - rewrite init_eq, Hconn. reflexivity.
  - unfold printed_by, flushed_by, created_by. rewrite main_eq, Hconn. simpl.
    rewrite !drop_all, <- !app_assoc, drop_app_length. auto 10.
Qed.

Lemma X7_witness :
  printed_by (main env_no_driver sample_config) init_world
  = [DriverInitFailed (OtherError "unreachable");
     UnexpectedError (AttributeError "FILE_PATH");
     CloseFailed (AttributeError "driver")].
Proof.
  exact (proj1 (proj2
    (X7_driver_not_created env_no_driver sample_config init_world
       (OtherError "unreachable") eq_refl))).
Defined.

(** X8. When [driver.session()] raises, the script has read the file but
    calls no write transaction and creates no node; it prints the failure
    line of [load_csv_to_neo4j], and still closes the driver. *)
Theorem X8_session_not_opened (env : Env) (config : Config)
    (data : DataFrame) (w : World) (e : exn) :
  connect_raises env = None ->
  read_csv env (cfg_FILE_PATH config) = Ok data ->
  session_raises env = Some e ->
  printed_by (main env config) w
  = [DriverInitialized; CsvLoaded; LoadFailed e;
     match close_raises env with
     | Some e' => CloseFailed e'
     | None => ConnectionClosed
     end] /\
  flushed_by (main env config) w = [] /\
  created_by (main env config) w = [] /\
  sessions_opened (snd (main env config w)) = sessions_opened w /\
  driver_close_calls (snd (main env config w)) = S (driver_close_calls w).
Proof.
  intros Hconn Hcsv Hs.
  unfold printed_by, flushed_by, created_by.
  rewrite main_eq, Hconn, Hcsv. cbv zeta.
  rewrite (load_csv_to_neo4j_no_session env
             (mkLoader (Some tt) (Some (cfg_FILE_PATH config)))
             data default_batch_size _ e eq_refl Hs).
  simpl. rewrite !drop_all, <- !app_assoc, drop_app_length. auto.
Qed.

Lemma X8_witness :
  printed_by (main env_no_session sample_config) init_world
  = [DriverInitialized; CsvLoaded; LoadFailed (OtherError "no session");
     ConnectionClosed].
Proof.
  exact (proj1
    (X8_session_not_opened env_no_session sample_config sample_data init_world
       (OtherError "no session") eq_refl eq_refl eq_refl)).
Defined.

(** X9. When nothing fails, the script creates one node for each row of the
    file, in row order, in write transactions of the default size 1000
    ([run] passes no batch size), and prints the lines of success followed
    by the line of [close]. *)
Theorem X9_script_loads_the_file (env : Env) (config : Config)
    (data : DataFrame) (w : World) :
  connect_raises env = None ->
  read_csv env (cfg_FILE_PATH config) = Ok data ->
  session_raises env = None ->
  (forall k, commit_raises env k = None) ->
  (forall k, tx_run_raises env k = None) ->
  created_by (main env config) w = unwind_create_set (to_dict <$> data) /\
  flushed_by (main env config) w = batches 1000 (iterrows data) /\
  printed_by (main env config) w
  = [DriverInitialized; CsvLoaded; AllLoaded;
     match close_raises env with
     | Some e => CloseFailed e
     | None => ConnectionClosed
     end].
Proof.
  intros Hconn Hcsv Hs Hc Hr.
  destruct (main_clean_world env config data w Hconn Hcsv Hs Hc Hr)
    as (_ & Hf & Hst & Hout).
  unfold created_by, flushed_by, printed_by.
  rewrite Hf, Hst, Hout, !drop_app_length. auto.
Qed.

Lemma X9_witness :
  created_by (main env_ok sample_config) init_world
  = unwind_create_set (to_dict <$> sample_data).
Proof.
  exact (proj1
    (X9_script_loads_the_file env_ok sample_config sample_data init_world
       eq_refl eq_refl eq_refl (fun _ => eq_refl) (fun _ => eq_refl))).
Defined.

(** X10. The load is not idempotent: the query only creates, so running the
    script a second time on the same file adds the nodes of the rows a
    second time. *)
Theorem X10_second_run_duplicates (env : Env) (config : Config)
    (data : DataFrame) (w : World) :
  connect_raises env = None ->
  read_csv env (cfg_FILE_PATH config) = Ok data ->
  session_raises env = None ->
  (forall k, commit_raises env k = None) ->
  (forall k, tx_run_raises env k = None) ->
  created_by (main env config ;;; main env config) w
  = unwind_create_set (to_dict <$> data) ++
    unwind_create_set (to_dict <$> data).
Proof.
  intros Hconn Hcsv Hs Hc Hr.
  destruct (main_clean_world env config data w Hconn Hcsv Hs Hc Hr)
    as (H1 & _ & Hst & _).
  unfold created_by, bind.
  destruct (main env config w) as [[[]|e] w1]; simpl in *; [|discriminate].
  destruct (main_clean_world env config data w1 Hconn Hcsv Hs Hc Hr)
    as (_ & _ & Hst' & _).
  rewrite Hst', Hst, <- app_assoc. apply drop_app_length.
Qed.

Lemma X10_witness :
  created_by (main env_ok sample_config ;;; main env_ok sample_config)
    init_world
  = unwind_create_set (to_dict <$> sample_data) ++
    unwind_create_set (to_dict <$> sample_data).
Proof.
  exact (X10_second_run_duplicates env_ok sample_config sample_data init_world
           eq_refl eq_refl eq_refl (fun _ => eq_refl) (fun _ => eq_refl)).
Defined.

(** X11. No method lets an exception of class [Exception] out.  The
    handlers are [except Exception], and the exceptions of [exn] are those
    the driver, pandas and the store raise, all of that class (an interrupt
    or [SystemExit] is not of it and is no part of this statement).
    Whichever of them are raised, [__init__], [load_data],
    [load_csv_to_neo4j], [run] and [close] return normally, and
    [load_csv_to_neo4j], [run] and [close] return the same value whether
    they succeeded or not. *)
Theorem X11_methods_never_raise (env : Env) (self : Loader)
    (data : DataFrame) (B : Z) (URI USERNAME PASSWORD path : string)
    (w : World) :
  (exists loader, fst (init env URI USERNAME PASSWORD path w) = Ok loader) /\
  (exists result, fst (load_data env self w) = Ok result) /\
  fst (load_csv_to_neo4j env self data B w) = Ok tt /\
  fst (run env self w) = Ok tt /\
  fst (close env self w) = Ok tt.
Proof.
  split; [|split; [|split; [|split]]].
  - rewrite init_eq. destruct (connect_raises env); eexists; reflexivity.
  - rewrite load_data_eq. destruct (FILE_PATH self) as [p|]; [|eauto].
    destruct (read_csv env p); eauto.
  - rewrite load_csv_to_neo4j_returns. reflexivity.
  - rewrite run_eq. reflexivity.
  - rewrite close_eq. reflexivity.
Qed.

(** X12. The line of success does not mean that anything was loaded: when
    every [tx.run] raises and no commit does, every batch is submitted, no
    node is created, and the last line of [load_csv_to_neo4j] is still
    [AllLoaded]. *)
Theorem X12_success_line_without_nodes (env : Env) (self : Loader)
    (data : DataFrame) (B : Z) (w : World) :
  driver self = Some tt ->
  session_raises env = None ->
  (forall k, commit_raises env k = None) ->
  (forall k, tx_run_raises env k <> None) ->
  created_by (load_csv_to_neo4j env self data B) w = [] /\
  flushed_by (load_csv_to_neo4j env self data B) w
  = batches B (iterrows data) /\
  last (stdout (snd (load_csv_to_neo4j env self data B w))) = Some AllLoaded.
Proof.
  intros Hd Hs Hc Hr. split.
  - unfold created_by.
    rewrite load_csv_to_neo4j_store, Hd, Hs, committed_none by exact Hr.
    simpl. rewrite app_nil_r. apply drop_all.
  - apply load_csv_to_neo4j_flushes_all; assumption.
Qed.

Lemma X12_witness :
  created_by (load_csv_to_neo4j env_tx_run_always_fails loader_ok
                sample_data 2) init_world = [].
Proof.
  exact (proj1
    (X12_success_line_without_nodes env_tx_run_always_fails loader_ok
       sample_data 2 init_world eq_refl eq_refl (fun _ => eq_refl)
       ltac:(intros k H; discriminate H))).
Defined.

(** X13. [load_data] only reads: in every environment it prints one line
    and leaves store, write transactions, sessions and driver as they were;
    it returns a DataFrame exactly when [self.FILE_PATH] is set and
    [pd.read_csv] returned that DataFrame for it. *)
Theorem X13_load_data_only_reads (env : Env) (self : Loader) (w : World) :
  let r := load_data env self w in
  length (printed_by (load_data env self) w) = 1 /\
  store (snd r) = store w /\
  flushed (snd r) = flushed w /\
  sessions_opened (snd r) = sessions_opened w /\
  drivers_opened (snd r) = drivers_opened w /\
  driver_close_calls (snd r) = driver_close_calls w /\
  forall data,
    fst r = Ok (Some data) <->
    exists path, FILE_PATH self = Some path /\ read_csv env path = Ok data.
Proof.
  intros r. subst r. unfold printed_by. rewrite load_data_eq.
  destruct (FILE_PATH self) as [path|].
  - destruct (read_csv env path) as [d|e] eqn:E; simpl;
      rewrite drop_app_length; repeat split; try reflexivity.
    + intros H. inversion H; subst. eauto.
    + intros (p & Hp & Hd). inversion Hp; subst. congruence.
    + discriminate.
    + intros (p & Hp & Hd). inversion Hp; subst. congruence.
  - simpl. rewrite drop_app_length. repeat split; try reflexivity.
    + discriminate.
    + intros (p & Hp & _). discriminate.
Qed.
